(** * Shhed SDK: the client of [src/Shhed.ts] and its error type of
      [src/types.ts], embedded as Rocq functions.

    Conventions of the embedding.
    - A JavaScript string is carried by the bytes of its UTF-8 form, as a
      [string].  The empty string is the only falsy one.  A string holding
      an unpaired surrogate has no UTF-8 form: module [UTF16] has strings
      as sequences of code units, and [Names.get_units] is [get] on any
      of them.
    - A value of type [any] that comes out of [response.json()] is a
      [json]; [undefined] is [None] in an [option json].
    - [async] functions are computations over a transport: running one
      gives the list of effects it performed (requests sent, bodies
      parsed) and how its promise settled. *)

From Stdlib Require Import NArith Ascii String DecimalString.
From stdpp Require Import base strings list gmap.

Local Open Scope string_scope.
Set Warnings "-register-all".

(** ** JavaScript values *)

Module JS.

(** The double-quote character, as a one-character string. *)
Definition dquote : string := String "034"%char EmptyString.

(** [!s] on a string: only the empty string is falsy. *)
Definition truthy_string (s : string) : bool :=
  match s with
  | EmptyString => false
  | String _ _ => true
  end.

(** [s.startsWith(p)] *)
Definition startsWith (s p : string) : bool := String.prefix p s.

(** [s.replace(/\/$/, '')]: the pattern matches one slash at the very
    end of the input (no [m] flag), and that slash is dropped. *)
Fixpoint strip_trailing_slash (s : string) : string :=
  match s with
  | EmptyString => EmptyString
  | String c EmptyString => if Ascii.eqb c "/" then EmptyString else s
  | String c rest => String c (strip_trailing_slash rest)
  end.

(** Template-literal conversion of a non-negative integer. *)
Definition decimal (n : N) : string := NilEmpty.string_of_uint (N.to_uint n).

(** *** encodeURIComponent

    On the octets of a string that has them.  The strings that have none
    (an unpaired surrogate) are the business of
    [UTF16.encodeURIComponent_units]. *)

Definition in_range (lo hi c : ascii) : bool :=
  (N_of_ascii lo <=? N_of_ascii c)%N && (N_of_ascii c <=? N_of_ascii hi)%N.

Fixpoint mem_ascii (c : ascii) (s : string) : bool :=
  match s with
  | EmptyString => false
  | String d rest => Ascii.eqb c d || mem_ascii c rest
  end.

(** uriUnreserved: letters, digits and the marks [- _ . ! ~ * ' ( )]. *)
Definition uriUnreserved (c : ascii) : bool :=
  in_range "A" "Z" c || in_range "a" "z" c || in_range "0" "9" c
  || mem_ascii c "-_.!~*'()".

Definition hex_digit (n : N) : ascii :=
  if (n <? 10)%N then ascii_of_N (48 + n) else ascii_of_N (55 + n).

(** One octet as [%XY], upper-case hexadecimal. *)
Definition percent_octet (c : ascii) : string :=
  let n := N_of_ascii c in
  String "%" (String (hex_digit (n / 16)) (String (hex_digit (n mod 16)) EmptyString)).

Fixpoint encodeURIComponent (s : string) : string :=
  match s with
  | EmptyString => EmptyString
  | String c rest =>
      (if uriUnreserved c then String c EmptyString else percent_octet c)
        +:+ encodeURIComponent rest
  end.

(** The inverse reading of a percent-encoded path segment (RFC 3986,
    section 2.1): [%XY] stands for the octet with hexadecimal digits
    [X] and [Y], every other character for itself.  The client never
    decodes; this is what the server does with the segment. *)
Definition hex_value (c : ascii) : option N :=
  if in_range "0" "9" c then Some (N_of_ascii c - 48)%N
  else if in_range "A" "F" c then Some (N_of_ascii c - 55)%N
  else if in_range "a" "f" c then Some (N_of_ascii c - 87)%N
  else None.

Fixpoint percent_decode (s : string) : option string :=
  match s with
  | EmptyString => Some EmptyString
  | String c rest =>
      if Ascii.eqb c "%" then
        match rest with
        | String h (String l rest') =>
            match hex_value h, hex_value l, percent_decode rest' with
            | Some a, Some b, Some r => Some (String (ascii_of_N (16 * a + b)) r)
            | _, _, _ => None
            end
        | _ => None
        end
      else
        match percent_decode rest with
        | Some r => Some (String c r)
        | None => None
        end
  end.

(** *** The URL constructor

    [new URL(s)] belongs to the platform.  The client is embedded over
    any verdict function for it; [URL_has_scheme] is the first stage of
    the WHATWG parser, used where a concrete verdict is needed: with no
    base URL, an input that does not open with a scheme and a colon is
    rejected.  Leading control characters and spaces are skipped, as the
    parser does.  Host and port checks are left out, so it accepts a few
    inputs the platform rejects. *)
Definition is_alpha (c : ascii) : bool := in_range "A" "Z" c || in_range "a" "z" c.

Definition is_scheme_char (c : ascii) : bool :=
  is_alpha c || in_range "0" "9" c || mem_ascii c "+-.".

Fixpoint scheme_tail (s : string) : bool :=
  match s with
  | EmptyString => false
  | String c rest =>
      if Ascii.eqb c ":" then true
      else if is_scheme_char c then scheme_tail rest
      else false
  end.

Fixpoint URL_has_scheme (s : string) : bool :=
  match s with
  | EmptyString => false
  | String c rest =>
      if (N_of_ascii c <=? 32)%N then URL_has_scheme rest
      else is_alpha c && scheme_tail rest
  end.

(** *** Parsed JSON

    A number is carried by the text [Number.prototype.toString] gives
    for the parsed double; zero, the one falsy number JSON can yield,
    has the text [0]. *)
Inductive json : Type :=
| JNull
| JBool (b : bool)
| JNumber (text : string)
| JString (s : string)
| JArray (items : list json)
| JObject (members : gmap string json).

(** ToBoolean; [None] is [undefined]. *)
Definition truthy (v : option json) : bool :=
  match v with
  | None => false
  | Some JNull => false
  | Some (JBool b) => b
  | Some (JNumber text) => negb (String.eqb text "0")
  | Some (JString s) => truthy_string s
  | Some (JArray _) => true
  | Some (JObject _) => true
  end.

Fixpoint join (sep : string) (parts : list string) : string :=
  match parts with
  | [] => EmptyString
  | [p] => p
  | p :: rest => p +:+ sep +:+ join sep rest
  end.

(** ToString, as the [Error] constructor applies it to its message;
    [None] when the conversion throws a TypeError.  An array joins its
    elements with commas, [null] elements giving the empty string.  An
    object is converted by its [toString]: the inherited one gives
    [[object Object]], but a parsed object with a member of its own named
    [toString] shadows it with a value that cannot be called, the
    inherited [valueOf] gives back the object, and the conversion throws. *)
Fixpoint ToString (v : json) : option string :=
  match v with
  | JNull => Some "null"
  | JBool true => Some "true"
  | JBool false => Some "false"
  | JNumber text => Some text
  | JString s => Some s
  | JArray items =>
      match (fix elements (l : list json) : option (list string) :=
               match l with
               | [] => Some []
               | e :: later =>
                   match (match e with
                          | JNull => Some EmptyString
                          | _ => ToString e
                          end), elements later with
                   | Some text, Some texts => Some (text :: texts)
                   | _, _ => None
                   end
               end) items with
      | Some texts => Some (join "," texts)
      | None => None
      end
  | JObject members =>
      match members !! "toString" with
      | Some _ => None
      | None => Some "[object Object]"
      end
  end.

(** The text of the TypeError a failed conversion raises. *)
Definition not_primitive_message : string :=
  "Cannot convert object to primitive value".

(** The text of the TypeError raised by reading member [p] off [null]. *)
Definition null_member_message (p : string) : string :=
  "Cannot read properties of null (reading '" +:+ p +:+ "')".

(** [a || b] on an optional string. *)
Definition or_default (a : option string) (b : string) : string :=
  match a with
  | Some s => if truthy_string s then s else b
  | None => b
  end.

End JS.

(** ** types.ts *)

Module Types.
Import JS.

Record ShhedConfig : Type := {
  access_key : string;
  secret_key : option string;
  projectId : string;
  endpoint : option string
}.

(** The error body [{ detail }] is whatever the server sent: the cast
    [responseData as ShhedError] checks nothing. *)
Record ShhedSDKError : Type := {
  name : string;
  message : string;
  statusCode : N;
  response : option json
}.

(** What a [throw] can carry, as far as [instanceof] tells it apart. *)
Inductive thrown : Type :=
| ThrownSDKError (e : ShhedSDKError)
| ThrownError (class msg : string)
| ThrownValue.

(** [new ShhedSDKError(message, statusCode, response?)]; [super(message)]
    stores the message converted to a string, and throws when the
    conversion does: the declared type of [message] is [string], but the
    value passed at run time is whatever the server sent as [detail]. *)
Definition new_ShhedSDKError (msg : json) (code : N) (resp : option json)
  : thrown + ShhedSDKError :=
  match ToString msg with
  | Some text =>
      inr {| name := "ShhedSDKError";
             message := text;
             statusCode := code;
             response := resp |}
  | None => inl (ThrownError "TypeError" not_primitive_message)
  end.

(** [{ ...config, secret_key }] *)
Definition with_secret_key (config : ShhedConfig) (sk : option string) : ShhedConfig :=
  {| access_key := access_key config;
     secret_key := sk;
     projectId := projectId config;
     endpoint := endpoint config |}.

(** [new Error(msg)] *)
Definition new_Error (msg : string) : thrown := ThrownError "Error" msg.

Definition instanceof_ShhedSDKError (e : thrown) : bool :=
  match e with
  | ThrownSDKError _ => true
  | _ => false
  end.

(** [ShhedSDKError extends Error]. *)
Definition instanceof_Error (e : thrown) : bool :=
  match e with
  | ThrownSDKError _ | ThrownError _ _ => true
  | ThrownValue => false
  end.

(** [error.message] of an [Error] instance. *)
Definition error_message (e : thrown) : string :=
  match e with
  | ThrownSDKError s => message s
  | ThrownError _ msg => msg
  | ThrownValue => EmptyString
  end.

(** [v.p] for a member name [p] that no built-in prototype defines
    ([detail], [key_value]): reading it off [null] raises a TypeError,
    an object gives its own member, and every other value gives
    [undefined]. *)
Definition member (v : json) (p : string) : thrown + option json :=
  match v with
  | JNull => inl (ThrownError "TypeError" (null_member_message p))
  | JObject members => inr (members !! p)
  | _ => inr None
  end.

End Types.

(** ** Strings as JavaScript has them *)

Module UTF16.
Import JS Types.

(** A JavaScript string is a sequence of 16-bit code units, each below
    65536.  Everywhere else a string is carried by its UTF-8 octets, which
    a string has when none of its surrogates is unpaired; [utf8] gives
    them, and is [None] for the strings that have none. *)
Definition is_high_surrogate (u : N) : bool := (55296 <=? u)%N && (u <=? 56319)%N.

Definition is_low_surrogate (u : N) : bool := (56320 <=? u)%N && (u <=? 57343)%N.

(** The UTF-8 octets of a code point. *)
Definition utf8_of_code_point (cp : N) : string :=
  if (cp <? 128)%N then
    String (ascii_of_N cp) EmptyString
  else if (cp <? 2048)%N then
    String (ascii_of_N (192 + cp / 64))
      (String (ascii_of_N (128 + cp mod 64)) EmptyString)
  else if (cp <? 65536)%N then
    String (ascii_of_N (224 + cp / 4096))
      (String (ascii_of_N (128 + (cp / 64) mod 64))
         (String (ascii_of_N (128 + cp mod 64)) EmptyString))
  else
    String (ascii_of_N (240 + cp / 262144))
      (String (ascii_of_N (128 + (cp / 4096) mod 64))
         (String (ascii_of_N (128 + (cp / 64) mod 64))
            (String (ascii_of_N (128 + cp mod 64)) EmptyString))).

Fixpoint utf8 (units : list N) : option string :=
  match units with
  | [] => Some EmptyString
  | u :: later =>
      if is_high_surrogate u then
        match later with
        | l :: later' =>
            if is_low_surrogate l then
              match utf8 later' with
              | Some octets =>
                  Some (utf8_of_code_point
                          (65536 + (u - 55296) * 1024 + (l - 56320)) +:+ octets)
              | None => None
              end
            else None
        | [] => None
        end
      else if is_low_surrogate u then None
      else
        match utf8 later with
        | Some octets => Some (utf8_of_code_point u +:+ octets)
        | None => None
        end
  end.

(** The code units of a string of ASCII characters. *)
Fixpoint code_units (s : string) : list N :=
  match s with
  | EmptyString => []
  | String c rest => N_of_ascii c :: code_units rest
  end.

(** What [encodeURIComponent] throws on a string with an unpaired
    surrogate. *)
Definition URIError : thrown := ThrownError "URIError" "URI malformed".

(** [encodeURIComponent] as the platform has it, on any string: it
    throws on an unpaired surrogate, and otherwise escapes the UTF-8
    octets of the string, which is [JS.encodeURIComponent] on them. *)
Definition encodeURIComponent_units (units : list N) : thrown + string :=
  match utf8 units with
  | Some octets => inr (encodeURIComponent octets)
  | None => inl URIError
  end.

End UTF16.

(** ** cross-fetch: requests, responses and asynchronous computations *)

Module Fetch.
Import JS Types.

Record Request : Type := {
  req_url : string;
  req_method : string;
  req_headers : gmap string string
}.

(** A completed response.  [res_json] is how [response.json()] settles:
    with the parsed body, or with what the parser threw. *)
Record Response : Type := {
  status : N;
  statusText : string;
  res_json : thrown + json
}.

(** [response.ok]: the status is in the range 200 to 299. *)
Definition ok (r : Response) : bool :=
  (200 <=? status r)%N && (status r <=? 299)%N.

(** The transport: a request either never completes, and [fetch]
    rejects, or completes with a response. *)
Definition Transport : Type := Request -> thrown + Response.

Inductive effect : Type :=
| Fetched (req : Request)
| ParsedBody (res : Response).

Inductive settled (A : Type) : Type :=
| Resolved (a : A)
| Rejected (e : thrown).
Arguments Resolved {A} a.
Arguments Rejected {A} e.

Definition Async (A : Type) : Type := Transport -> list effect * settled A.

Definition ret {A} (a : A) : Async A := fun _ => ([], Resolved a).

Definition throw {A} (e : thrown) : Async A := fun _ => ([], Rejected e).

Definition bind {A B} (m : Async A) (k : A -> Async B) : Async B :=
  fun net =>
    match m net with
    | (log, Resolved a) => let (log', r) := k a net in ((log ++ log')%list, r)
    | (log, Rejected e) => (log, Rejected e)
    end.

(** [try { m } catch (error) { handler }] *)
Definition try_catch {A} (m : Async A) (handler : thrown -> Async A) : Async A :=
  fun net =>
    match m net with
    | (log, Resolved a) => (log, Resolved a)
    | (log, Rejected e) => let (log', r) := handler e net in ((log ++ log')%list, r)
    end.

Definition lift {A} (r : thrown + A) : Async A :=
  match r with
  | inl e => throw e
  | inr a => ret a
  end.

(** [await fetch(url, init)] *)
Definition fetch (req : Request) : Async Response :=
  fun net => ([Fetched req],
              match net req with
              | inl e => Rejected e
              | inr res => Resolved res
              end).

(** [await response.json()] *)
Definition json_of (res : Response) : Async json :=
  fun _ => ([ParsedBody res],
            match res_json res with
            | inl e => Rejected e
            | inr v => Resolved v
            end).

(** The effects of a run, and how its promise settled. *)
Definition effects {A} (run : list effect * settled A) : list effect := fst run.
Definition outcome {A} (run : list effect * settled A) : settled A := snd run.

(** The requests among the effects, in order. *)
Definition requests (log : list effect) : list Request :=
  omap (fun ev => match ev with Fetched req => Some req | ParsedBody _ => None end) log.

Definition parses (log : list effect) : list Response :=
  omap (fun ev => match ev with ParsedBody res => Some res | Fetched _ => None end) log.

End Fetch.

Declare Scope async_scope.
Delimit Scope async_scope with async.
Notation "'let!' x ':=' m 'in' k" := (Fetch.bind m (fun x => k))
  (at level 10, x name, m at level 100, k at level 200) : async_scope.

(** ** Shhed.ts *)

Module Shhed.
Import JS Types Fetch.
Local Open Scope async_scope.

Record Shhed : Type := {
  config : ShhedConfig;
  endpoint : string
}.

Definition default_endpoint : string := "https://api.shhed.io".

Section Construction.

(** The platform's [URL] constructor is not part of the repository:
    [URL_parses s] tells whether [new URL(s)] returns rather than
    throws. *)
Variable URL_parses : string -> bool.

(** [validateConfig]: [inr tt] when it returns, [inl e] when it throws. *)
Definition validateConfig (config : ShhedConfig) : thrown + unit :=
  if negb (truthy_string (access_key config)) then
    inl (new_Error "Shhed access_key is required")
  else if negb (truthy_string (projectId config)) then
    inl (new_Error "Shhed projectId is required")
  else if negb (startsWith (access_key config) "ak_") then
    inl (new_Error ("Shhed access_key must start with " +:+ dquote +:+ "ak_" +:+ dquote))
  else
    match Types.endpoint config with
    | Some e =>
        if truthy_string e then
          if URL_parses e then inr tt
          else inl (new_Error "Shhed endpoint must be a valid URL")
        else inr tt
    | None => inr tt
    end.

Definition constructor (config : ShhedConfig) : thrown + Shhed :=
  match validateConfig config with
  | inl e => inl e
  | inr _ =>
      inr {| config := config;
             endpoint := or_default (Types.endpoint config) default_endpoint |}
  end.

End Construction.

(** The credential sent as the bearer token. *)
Definition authToken (this : Shhed) : string :=
  match secret_key (config this) with
  | Some sk =>
      if truthy_string sk then access_key (config this) +:+ ":" +:+ sk
      else access_key (config this)
  | None => access_key (config this)
  end.

Definition get_url (this : Shhed) (keyName : string) : string :=
  strip_trailing_slash (endpoint this) +:+ "/v1/keys/" +:+ encodeURIComponent keyName.

Definition get_headers (this : Shhed) : gmap string string :=
  {[ "Authorization" := "Bearer " +:+ authToken this;
     "X-Project-ID" := projectId (config this);
     "Content-Type" := "application/json" ]}.

(** The one request of [get]. *)
Definition get_request (this : Shhed) (keyName : string) : Request :=
  {| req_url := get_url this keyName;
     req_method := "GET";
     req_headers := get_headers this |}.

(** [error.detail || `HTTP ${response.status}: ${response.statusText}`] *)
Definition detail_or_status (detail : option json) (res : Response) : json :=
  match detail with
  | Some d =>
      if truthy detail then d
      else JString ("HTTP " +:+ decimal (status res) +:+ ": " +:+ statusText res)
  | None => JString ("HTTP " +:+ decimal (status res) +:+ ": " +:+ statusText res)
  end.

(** [throw new ShhedSDKError(message, statusCode, response)]: the error
    is constructed first, and what the constructor throws is thrown in
    its place. *)
Definition throw_ShhedSDKError {A} (msg : json) (code : N) (resp : option json)
  : Async A :=
  match new_ShhedSDKError msg code resp with
  | inl e => throw e
  | inr err => throw (ThrownSDKError err)
  end.

(** The [catch] block of [get]. *)
Definition get_catch (keyName : string) (error : thrown) : Async (option json) :=
  if instanceof_ShhedSDKError error then throw error
  else if instanceof_Error error then
    throw_ShhedSDKError
      (JString ("Failed to fetch key " +:+ dquote +:+ keyName +:+ dquote +:+ ": "
                +:+ error_message error)) 0 None
  else
    throw_ShhedSDKError
      (JString ("Failed to fetch key " +:+ dquote +:+ keyName +:+ dquote
                +:+ ": Unknown error")) 0 None.

(** [async get(keyName)]; it resolves to [keyData.key_value], whatever
    the server put there. *)
Definition get (this : Shhed) (keyName : string) : Async (option json) :=
  if negb (truthy_string keyName) then throw (new_Error "Key name is required")
  else
    try_catch
      (let! response := fetch (get_request this keyName) in
       let! responseData := json_of response in
       if negb (ok response) then
         let! detail := lift (member responseData "detail") in
         throw_ShhedSDKError
           (detail_or_status detail response) (status response) (Some responseData)
       else
         lift (member responseData "key_value"))
      (get_catch keyName).

Definition test_url (this : Shhed) : string :=
  strip_trailing_slash (endpoint this) +:+ "/health".

(** The one request of [test]. *)
Definition test_request (this : Shhed) : Request :=
  {| req_url := test_url this;
     req_method := "GET";
     req_headers := {[ "Content-Type" := "application/json" ]} |}.

(** The [catch] block of [test]. *)
Definition test_catch (error : thrown) : Async bool :=
  if instanceof_ShhedSDKError error then throw error
  else
    throw_ShhedSDKError
      (JString ("Connection test failed: "
                +:+ (if instanceof_Error error then error_message error
                     else "Unknown error"))) 0 None.

(** [async test()] *)
Definition test (this : Shhed) : Async bool :=
  try_catch
    (let! response := fetch (test_request this) in
     if negb (ok response) then
       throw_ShhedSDKError
         (JString ("Health check failed: HTTP " +:+ decimal (status response)))
         (status response) None
     else ret true)
    test_catch.

End Shhed.

(** ** Calls with any name *)

Module Names.
Import JS Types UTF16 Fetch Shhed.

(** [get] on any JavaScript string.  The form of the name matters on
    lines 82 to 86: the empty name is refused, and [encodeURIComponent]
    throws on a name with an unpaired surrogate, before the [try] block
    and before any request.  Past these lines the call runs as [get]
    does on the octets of the name. *)
Definition get_units (this : Shhed) (keyName : list N) : Async (option json) :=
  match keyName with
  | [] => throw (new_Error "Key name is required")
  | _ :: _ =>
      match encodeURIComponent_units keyName, utf8 keyName with
      | inr _, Some name => get this name
      | inl e, _ => throw e
      | inr _, None => throw URIError
      end
  end.

End Names.

(** ** Sample data, after [__tests__/Shhed.test.ts] *)

Module Samples.
Import JS Types Fetch Shhed.

Definition validConfig : ShhedConfig :=
  {| access_key := "ak_test123"; secret_key := Some "secret123";
     projectId := "test-project"; Types.endpoint := None |}.

Definition publicConfig : ShhedConfig :=
  {| access_key := "ak_test123"; secret_key := None;
     projectId := "test-project"; Types.endpoint := None |}.

Definition localConfig : ShhedConfig :=
  {| access_key := "ak_test123"; secret_key := Some "secret123";
     projectId := "test-project"; Types.endpoint := Some "http://localhost:8000/" |}.

(** Configurations whose optional field is supplied, and empty. *)
Definition blankSecretConfig : ShhedConfig :=
  {| access_key := "ak_test123"; secret_key := Some "";
     projectId := "test-project"; Types.endpoint := None |}.

Definition blankEndpointConfig : ShhedConfig :=
  {| access_key := "ak_test123"; secret_key := Some "secret123";
     projectId := "test-project"; Types.endpoint := Some "" |}.

Definition noAccessKey : ShhedConfig :=
  {| access_key := ""; secret_key := Some "secret123";
     projectId := "test-project"; Types.endpoint := None |}.

Definition noProjectId : ShhedConfig :=
  {| access_key := "ak_test123"; secret_key := Some "secret123";
     projectId := ""; Types.endpoint := None |}.

Definition badAccessKey : ShhedConfig :=
  {| access_key := "invalid-access-key-format"; secret_key := Some "secret123";
     projectId := "test-project"; Types.endpoint := None |}.

Definition badEndpoint : ShhedConfig :=
  {| access_key := "ak_test123"; secret_key := Some "secret123";
     projectId := "test-project"; Types.endpoint := Some "invalid-url" |}.

Definition client_of (config : ShhedConfig) : Shhed :=
  {| config := config;
     endpoint := or_default (Types.endpoint config) default_endpoint |}.

(** The client of the test suite. *)
Definition kv : Shhed := client_of validConfig.

(** A transport that answers every request alike. *)
Definition always (answer : thrown + Response) : Transport := fun _ => answer.

Definition networkError : thrown := ThrownError "TypeError" "Network error".

Definition syntaxError : thrown :=
  ThrownError "SyntaxError" "Unexpected end of JSON input".

Definition keyFound : Response :=
  {| status := 200; statusText := "OK";
     res_json := inr (JObject {[ "key_name" := JString "TEST_KEY";
                                 "key_value" := JString "secret-value";
                                 "project_id" := JString "test-project" ]}) |}.

Definition keyMissing : Response :=
  {| status := 404; statusText := "Not Found";
     res_json := inr (JObject {[ "detail" := JString "API key not found" ]}) |}.

(** A failure whose [detail] is there, and empty. *)
Definition blankDetail : Response :=
  {| status := 404; statusText := "Not Found";
     res_json := inr (JObject {[ "detail" := JString "" ]}) |}.

Definition noDetail : Response :=
  {| status := 503; statusText := "Service Unavailable";
     res_json := inr (JObject ∅) |}.

Definition notJSON : Response :=
  {| status := 502; statusText := "Bad Gateway"; res_json := inl syntaxError |}.

Definition healthy : Response :=
  {| status := 200; statusText := "OK";
     res_json := inr (JObject {[ "status" := JString "healthy" ]}) |}.

Definition unhealthy : Response :=
  {| status := 500; statusText := "Internal Server Error"; res_json := inl syntaxError |}.

End Samples.

(** ** The specification's wording

    Second definitions, written after the specification's sentences and
    not after the code; the properties below compare the client with
    them. *)

Module Stated.
Import JS Types Fetch Shhed.

(** "HTTP {status}: {statusText}" *)
Definition status_line (res : Response) : string :=
  "HTTP " +:+ decimal (status res) +:+ ": " +:+ statusText res.

(** The failure for a non-2xx response: the message is the body's
    [detail] "when present", the status line otherwise. *)
Definition server_failure (res : Response) (body : json) : ShhedSDKError :=
  {| name := "ShhedSDKError";
     message := match member body "detail" with
                | inr (Some d) => default EmptyString (ToString d)
                | _ => status_line res
                end;
     statusCode := status res;
     response := Some body |}.

(** The credential "if secretKey is present". *)
Definition authorization (cfg : ShhedConfig) : string :=
  match secret_key cfg with
  | Some sk => "Bearer " +:+ access_key cfg +:+ ":" +:+ sk
  | None => "Bearer " +:+ access_key cfg
  end.

(** The four causes of a failed construction. *)
Definition construction_fails (URL_parses : string -> bool) (cfg : ShhedConfig) : Prop :=
  access_key cfg = ""
  \/ projectId cfg = ""
  \/ startsWith (access_key cfg) "ak_" = false
  \/ exists e, Types.endpoint cfg = Some e /\ URL_parses e = false.

(** "supplied value, or the fixed default" *)
Definition base_url (cfg : ShhedConfig) : string :=
  match Types.endpoint cfg with
  | Some e => e
  | None => default_endpoint
  end.

Definition key_url (cfg : ShhedConfig) (keyName : string) : string :=
  strip_trailing_slash (base_url cfg) +:+ "/v1/keys/" +:+ encodeURIComponent keyName.

End Stated.

(** ** Conditions on a transport *)

Module Transports.
Import JS Types Fetch.

(** A transport that raises no [ShhedSDKError] of its own: neither the
    request nor the parse of a body does. *)
Definition raises_no_ShhedSDKError (t : Transport) : Prop :=
  (forall req e, t req = inl e -> instanceof_ShhedSDKError e = false)
  /\ (forall req res e,
         t req = inr res -> res_json res = inl e -> instanceof_ShhedSDKError e = false).

(** A body whose [detail], when it is truthy, converts to a string:
    every string, number and boolean does, and so does an object or an
    array unless a member named [toString] is in the way. *)
Definition detail_converts (body : json) : Prop :=
  forall d,
    member body "detail" = inr (Some d) -> truthy (Some d) = true -> ToString d <> None.

End Transports.

(** ** examples/typescript-usage.ts: the retry helper of [ConfigService] *)

Module ConfigService.
Import JS Types Fetch Shhed.

Record ConfigService : Type := {
  shhed : Shhed
}.

(** [new ConfigService(config)] *)
Definition new_ConfigService (URL_parses : string -> bool) (config : ShhedConfig)
  : thrown + ConfigService :=
  match constructor URL_parses config with
  | inl e => inl e
  | inr client => inr {| shhed := client |}
  end.

(** What a call of the helper does, in order: lines written with
    [console.log], effects of the client, and waits on
    [setTimeout(resolve, ms)], each recorded by the delay it asks for. *)
Inductive event : Type :=
| Console (line : string)
| Client (ev : effect)
| Timeout (ms : N).

(** The network may answer differently from one attempt to the next:
    [net n] is the transport as it behaves during attempt [n]. *)
Definition Network : Type := N -> Transport.

(** The attempts [start], [start + 1], ... of a [for] loop, [count] of
    them. *)
Fixpoint attempts_from (start : N) (count : nat) : list N :=
  match count with
  | O => []
  | S count' => start :: attempts_from (N.succ start) count'
  end.

(** [Math.pow(2, attempt) * 1000], for a whole attempt up to 1014: on
    that range the double is this integer, exactly.  From attempt 1015
    the product in the code is [Infinity]; the properties of the waits
    are stated for [maxRetries] up to 1014, and never read [delay]
    beyond.  (A template literal prints the number in full below 10^21,
    up to attempt 59.) *)
Definition delay (attempt : N) : N := 2 ^ attempt * 1000.

(** [error instanceof ShhedSDKError] with a status code of 404, 401 or
    403: such an error is thrown on at once. *)
Definition gives_up (error : thrown) : bool :=
  match error with
  | ThrownSDKError e =>
      (statusCode e =? 404)%N || (statusCode e =? 401)%N || (statusCode e =? 403)%N
  | _ => false
  end.

Definition fetching_line (keyName : string) (attempt maxRetries : N) : string :=
  "🔄 Fetching " +:+ keyName +:+ " (attempt " +:+ decimal attempt +:+ "/"
  +:+ decimal maxRetries +:+ ")".

Definition fetched_line (keyName : string) : string :=
  "✅ Successfully fetched " +:+ keyName.

Definition retrying_line (ms : N) : string :=
  "⏳ Retrying in " +:+ decimal ms +:+ "ms...".

(** The body of the [for] loop, over the attempts still to run;
    [lastError] is [None] until an attempt has failed. *)
Fixpoint retry_loop (this : ConfigService) (keyName : string) (maxRetries : N)
    (net : Network) (attempts : list N) (lastError : option thrown)
  : list event * settled (option json) :=
  match attempts with
  | [] =>
      ([], Rejected (match lastError with
                     | Some error => error
                     | None => ThrownValue
                     end))
  | attempt :: later =>
      let run := get (shhed this) keyName (net attempt) in
      let started :=
        Console (fetching_line keyName attempt maxRetries)
        :: List.map Client (effects run) in
      match outcome run with
      | Resolved value =>
          ((started ++ [Console (fetched_line keyName)])%list, Resolved value)
      | Rejected error =>
          if gives_up error then (started, Rejected error)
          else
            let backoff :=
              if (attempt <? maxRetries)%N
              then [Console (retrying_line (delay attempt)); Timeout (delay attempt)]
              else [] in
            let (rest, result) :=
              retry_loop this keyName maxRetries net later (Some error) in
            ((started ++ backoff ++ rest)%list, result)
      end
  end.

(** [async getKeyWithRetry(keyName, maxRetries = 3)]; [maxRetries] is a
    count, a whole number: a fractional value, which the code would
    accept, is not modelled.  With no attempt made, [lastError] is still
    [undefined] when it is thrown. *)
Definition getKeyWithRetry (this : ConfigService) (keyName : string)
    (maxRetries : option N) (net : Network)
  : list event * settled (option json) :=
  let maxRetries := match maxRetries with Some n => n | None => 3%N end in
  retry_loop this keyName maxRetries net
    (attempts_from 1 (N.to_nat maxRetries)) None.

(** The requests and the waits among the events, in order. *)
Definition client_requests (log : list event) : list Request :=
  omap (fun ev => match ev with
                  | Client (Fetched req) => Some req
                  | _ => None
                  end) log.

Definition timeouts (log : list event) : list N :=
  omap (fun ev => match ev with Timeout ms => Some ms | _ => None end) log.

(** An attempt that fails and is followed by another one. *)
Definition fails_over (this : ConfigService) (keyName : string) (t : Transport) : Prop :=
  exists error,
    outcome (get (shhed this) keyName t) = Rejected error /\ gives_up error = false.

(** An attempt that ends the loop: it resolves, or fails with a 404, 401
    or 403. *)
Definition ends_loop (this : ConfigService) (keyName : string) (t : Transport) : Prop :=
  match outcome (get (shhed this) keyName t) with
  | Resolved _ => True
  | Rejected error => gives_up error = true
  end.

End ConfigService.

(** ** Sample networks for the retry helper *)

Module RetrySamples.
Import JS Types Fetch Shhed ConfigService Samples.

Definition service : ConfigService := {| shhed := kv |}.

(** Two failed connections, then the key. *)
Definition flaky : Network :=
  fun attempt =>
    if (attempt <? 3)%N then always (inl networkError) else always (inr keyFound).

(** No connection, ever. *)
Definition down : Network := fun _ => always (inl networkError).

(** The key is not there. *)
Definition missing : Network := fun _ => always (inr keyMissing).

(** A 404 whose body is not JSON, from a proxy say. *)
Definition proxy404 : Response :=
  {| status := 404; statusText := "Not Found"; res_json := inl syntaxError |}.

Definition garbled : Network := fun _ => always (inr proxy404).

(** A structured error, as a validation layer sends it. *)
Definition unprocessable : Response :=
  {| status := 422; statusText := "Unprocessable Entity";
     res_json := inr (JObject {[ "detail" := JObject {[ "msg" := JString "field required" ]} ]}) |}.

(** A name that is one unpaired high surrogate. *)
Definition loneSurrogate : list N := [55296%N].

(** A structured error with a member named [toString]. *)
Definition shadowed : Response :=
  {| status := 422; statusText := "Unprocessable Entity";
     res_json := inr (JObject {[ "detail" := JObject {[ "toString" := JString "x" ]} ]}) |}.

(** A successful answer that carries no [key_value]. *)
Definition emptyAnswer : Response :=
  {| status := 200; statusText := "OK"; res_json := inr (JObject ∅) |}.

Definition nullAnswer : Response :=
  {| status := 500; statusText := "Internal Server Error"; res_json := inr JNull |}.

End RetrySamples.

(** * Properties *)

Import JS Types UTF16 Fetch Shhed Names Transports.

(** ** Strings and the path encoding *)

Section Strings.

Lemma truthy_string_nonempty (s : string) : truthy_string s = true <-> s <> "".
Proof. destruct s; simpl; split; congruence. Qed.

Lemma truthy_string_empty (s : string) : truthy_string s = false <-> s = "".
Proof. destruct s; simpl; split; congruence. Qed.

Lemma or_default_supplied (e d : string) : e <> "" -> or_default (Some e) d = e.
Proof. intros He. simpl. apply truthy_string_nonempty in He. now rewrite He. Qed.

Lemma strip_trailing_slash_snoc (s : string) :
  strip_trailing_slash (s +:+ "/") = s.
Proof.
  induction s as [|c s IH]; [reflexivity|].
  simpl. rewrite IH. destruct s; reflexivity.
Qed.

(** Decoding undoes the encoding of one octet, whatever follows. *)
Lemma percent_decode_octet (c : ascii) (rest : string) :
  percent_decode
    ((if uriUnreserved c then String c EmptyString else percent_octet c) +:+ rest)
  = match percent_decode rest with
    | Some r => Some (String c r)
    | None => None
    end.
Proof.
  destruct c as [[] [] [] [] [] [] [] []]; reflexivity.
Qed.

Lemma percent_decode_encode (s : string) :
  percent_decode (encodeURIComponent s) = Some s.
Proof.
  induction s as [|c s IH]; [reflexivity|].
  cbn [encodeURIComponent]. rewrite percent_decode_octet, IH. reflexivity.
Qed.

Lemma utf8_of_code_point_nonempty (cp : N) (octets : string) :
  utf8_of_code_point cp +:+ octets <> "".
Proof.
  unfold utf8_of_code_point.
  destruct (cp <? 128)%N; [discriminate|].
  destruct (cp <? 2048)%N; [discriminate|].
  destruct (cp <? 65536)%N; discriminate.
Qed.

(** Only the empty string has no octets. *)
Lemma utf8_nonempty (units : list N) (octets : string) :
  units <> [] -> utf8 units = Some octets -> octets <> "".
Proof.
  destruct units as [|u later]; [congruence|]. intros _. cbn [utf8].
  destruct (is_high_surrogate u).
  - destruct later as [|l later]; [discriminate|].
    destruct (is_low_surrogate l); [|discriminate].
    destruct (utf8 later); [|discriminate].
    intros H. injection H as <-. apply utf8_of_code_point_nonempty.
  - destruct (is_low_surrogate u); [discriminate|].
    destruct (utf8 later); [|discriminate].
    intros H. injection H as <-. apply utf8_of_code_point_nonempty.
Qed.

(** A call on a name that has octets is the call on its octets. *)
Lemma get_units_octets (this : Shhed) (keyName : list N) (name : string) :
  keyName <> [] -> utf8 keyName = Some name -> get_units this keyName = get this name.
Proof.
  intros Hk Hname. destruct keyName as [|u later]; [congruence|].
  unfold get_units, encodeURIComponent_units. rewrite Hname. reflexivity.
Qed.

(** A call on a name that has none throws before anything is sent. *)
Lemma get_units_unpaired (this : Shhed) (keyName : list N) (net : Transport) :
  utf8 keyName = None -> get_units this keyName net = ([], Rejected URIError).
Proof.
  intros Hname. destruct keyName as [|u later]; [discriminate Hname|].
  unfold get_units, encodeURIComponent_units. rewrite Hname. reflexivity.
Qed.

Lemma encodeURIComponent_inj (s t : string) :
  encodeURIComponent s = encodeURIComponent t -> s = t.
Proof.
  intros H. apply (f_equal percent_decode) in H.
  rewrite !percent_decode_encode in H. congruence.
Qed.

End Strings.

(** ** Runs of [get] and [test] *)

Section Runs.

Variable this : Shhed.
Variable net : Transport.

Lemma ok_2xx (res : Response) :
  ok res = true <-> (200 <= status res <= 299)%N.
Proof.
  unfold ok. rewrite andb_true_iff, !N.leb_le. reflexivity.
Qed.

Lemma not_ok_2xx (res : Response) :
  ok res = false <-> ~ (200 <= status res <= 299)%N.
Proof.
  rewrite <- ok_2xx. destruct (ok res); split; congruence.
Qed.

(** A [throw new ShhedSDKError(...)] performs no effect and rejects:
    with the error, or with what its constructor threw. *)
Lemma throw_ShhedSDKError_run {A} (msg : json) (code : N) (resp : option json) :
  @throw_ShhedSDKError A msg code resp net
  = ([], Rejected (match new_ShhedSDKError msg code resp with
                   | inl e => e
                   | inr err => ThrownSDKError err
                   end)).
Proof.
  unfold throw_ShhedSDKError. destruct (new_ShhedSDKError msg code resp); reflexivity.
Qed.

Lemma get_catch_settles (keyName : string) (e : thrown) :
  exists e', get_catch keyName e net = ([], Rejected e').
Proof.
  unfold get_catch.
  destruct (instanceof_ShhedSDKError e); [|destruct (instanceof_Error e)];
    eexists; reflexivity.
Qed.

(** A call with a name sends its one request first. *)
Lemma get_effects (keyName : string) :
  keyName <> "" ->
  effects (get this keyName net) = [Fetched (get_request this keyName)]
  \/ exists res, net (get_request this keyName) = inr res
       /\ effects (get this keyName net)
          = [Fetched (get_request this keyName); ParsedBody res].
Proof.
  intros Hk. apply truthy_string_nonempty in Hk.
  unfold get. rewrite Hk. cbn [negb].
  unfold try_catch, bind, fetch, json_of.
  destruct (net (get_request this keyName)) as [e|res] eqn:Hnet.
  - destruct (get_catch_settles keyName e) as [e' ->]. now left.
  - right. exists res. split; [reflexivity|].
    destruct (res_json res) as [e|body].
    + destruct (get_catch_settles keyName e) as [e' ->]. reflexivity.
    + destruct (ok res); cbn [negb].
      * destruct (member body "key_value") as [e|v]; cbn.
        -- destruct (get_catch_settles keyName e) as [e' ->]. reflexivity.
        -- reflexivity.
      * destruct (member body "detail") as [e|v]; cbn.
        -- destruct (get_catch_settles keyName e) as [e' ->]. reflexivity.
        -- rewrite throw_ShhedSDKError_run. cbn.
           match goal with
           | |- context [get_catch keyName ?e net] =>
               destruct (get_catch_settles keyName e) as [e' ->]
           end.
           reflexivity.
Qed.

Lemma get_requests (keyName : string) :
  keyName <> "" ->
  requests (effects (get this keyName net)) = [get_request this keyName].
Proof.
  intros Hk. destruct (get_effects keyName Hk) as [->|(res & _ & ->)]; reflexivity.
Qed.

Lemma get_requests_empty_name :
  requests (effects (get this "" net)) = [].
Proof. reflexivity. Qed.

End Runs.

(** ** fetch-secret: failures *)

Section GetFailures.

Variable this : Shhed.
Variable net : Transport.

(** C6.  A call with the empty name sends nothing: it performs no
    effect at all, and its promise is rejected with a plain [Error]
    (no [ShhedSDKError]) whose message is "Key name is required". *)
Theorem get_empty_name_is_usage_error :
  effects (get this "" net) = []
  /\ requests (effects (get this "" net)) = []
  /\ outcome (get this "" net) = Rejected (ThrownError "Error" "Key name is required")
  /\ instanceof_ShhedSDKError (ThrownError "Error" "Key name is required") = false.
Proof. repeat split. Qed.

(** C7.  When the request of a call never completes, [fetch] rejecting
    with an error of message [msg], the call is rejected with a
    [ShhedSDKError] of status code 0 whose message is
    [Failed to fetch key "<name>": <msg>]; nothing is parsed. *)
Theorem get_transport_failure (keyName class msg : string) :
  keyName <> "" ->
  net (get_request this keyName) = inl (ThrownError class msg) ->
  get this keyName net
  = ([Fetched (get_request this keyName)],
     Rejected (ThrownSDKError
       {| name := "ShhedSDKError";
          message := "Failed to fetch key " +:+ dquote +:+ keyName +:+ dquote
                     +:+ ": " +:+ msg;
          statusCode := 0;
          response := None |})).
Proof.
  intros Hk Hnet. apply truthy_string_nonempty in Hk.
  unfold get. rewrite Hk. cbn [negb].
  unfold try_catch, bind, fetch. rewrite Hnet. reflexivity.
Qed.

(** Whatever [fetch] rejects with, short of a [ShhedSDKError], the
    status code is 0; a thrown value that is no [Error] has no message
    to quote, and the text says [Unknown error]. *)
Lemma get_transport_failure_status (keyName : string) (e : thrown) :
  keyName <> "" ->
  net (get_request this keyName) = inl e ->
  instanceof_ShhedSDKError e = false ->
  exists err,
    get this keyName net
    = ([Fetched (get_request this keyName)], Rejected (ThrownSDKError err))
    /\ statusCode err = 0%N
    /\ (instanceof_Error e = false ->
        message err = "Failed to fetch key " +:+ dquote +:+ keyName +:+ dquote
                      +:+ ": Unknown error").
Proof.
  intros Hk Hnet Hsdk. apply truthy_string_nonempty in Hk.
  unfold get. rewrite Hk. cbn [negb].
  unfold try_catch, bind, fetch. rewrite Hnet.
  unfold get_catch. rewrite Hsdk.
  destruct (instanceof_Error e) eqn:Herr; eexists; (split; [reflexivity|]);
    split; try reflexivity; intros; congruence.
Qed.

(** C3, as the code has it.  When the response completes and its body
    does not parse, [response.json()] rejecting with an error of
    message [msg], the [catch] block wraps that error: the call is
    rejected with a [ShhedSDKError] of status code 0, message
    [Failed to fetch key "<name>": <msg>] and no server detail,
    whatever the HTTP status was. *)
Theorem get_unparsable_body_is_wrapped (keyName class msg : string) (res : Response) :
  keyName <> "" ->
  net (get_request this keyName) = inr res ->
  res_json res = inl (ThrownError class msg) ->
  get this keyName net
  = ([Fetched (get_request this keyName); ParsedBody res],
     Rejected (ThrownSDKError
       {| name := "ShhedSDKError";
          message := "Failed to fetch key " +:+ dquote +:+ keyName +:+ dquote
                     +:+ ": " +:+ msg;
          statusCode := 0;
          response := None |})).
Proof.
  intros Hk Hnet Hbody. apply truthy_string_nonempty in Hk.
  unfold get. rewrite Hk. cbn [negb].
  unfold try_catch, bind, fetch, json_of. rewrite Hnet, Hbody. reflexivity.
Qed.

(** C1, as the code has it.  When the response completes with a status
    outside 200..299 and its body parses to a value other than [null],
    the call is rejected with a [ShhedSDKError] whose status code is the
    HTTP status and whose server detail is the parsed body, in two cases.
    When the body's [detail] member is absent or falsy (the empty string,
    say), the message is [HTTP <status>: <statusText>].  When the member
    is truthy and converts to a string, the message is that string: a
    string that is not empty is its own conversion.  (A truthy [detail]
    whose conversion throws is not covered here.) *)
Theorem get_server_failure (keyName : string) (res : Response) (body : json) :
  keyName <> "" ->
  net (get_request this keyName) = inr res ->
  ~ (200 <= status res <= 299)%N ->
  res_json res = inr body ->
  body <> JNull ->
  exists detail,
    member body "detail" = inr detail
    /\ (truthy detail = false ->
        get this keyName net
        = ([Fetched (get_request this keyName); ParsedBody res],
           Rejected (ThrownSDKError
             {| name := "ShhedSDKError";
                message := "HTTP " +:+ decimal (status res) +:+ ": " +:+ statusText res;
                statusCode := status res;
                response := Some body |})))
    /\ (forall d text,
          detail = Some d -> truthy detail = true -> ToString d = Some text ->
          get this keyName net
          = ([Fetched (get_request this keyName); ParsedBody res],
             Rejected (ThrownSDKError
               {| name := "ShhedSDKError";
                  message := text;
                  statusCode := status res;
                  response := Some body |})))
    /\ (forall s,
          detail = Some (JString s) -> s <> "" ->
          get this keyName net
          = ([Fetched (get_request this keyName); ParsedBody res],
             Rejected (ThrownSDKError
               {| name := "ShhedSDKError";
                  message := s;
                  statusCode := status res;
                  response := Some body |}))).
Proof.
  intros Hk Hnet Hst Hbody Hnull.
  apply truthy_string_nonempty in Hk. apply not_ok_2xx in Hst.
  assert (Hmem : exists detail, member body "detail" = inr detail).
  { destruct body; try (eexists; reflexivity). congruence. }
  destruct Hmem as [detail Hmem].
  assert (Hrun : get this keyName net
                 = ([Fetched (get_request this keyName); ParsedBody res],
                    Rejected (match new_ShhedSDKError (detail_or_status detail res)
                                      (status res) (Some body) with
                              | inl e =>
                                  ThrownSDKError
                                    {| name := "ShhedSDKError";
                                       message := "Failed to fetch key " +:+ dquote
                                                  +:+ keyName +:+ dquote +:+ ": "
                                                  +:+ error_message e;
                                       statusCode := 0;
                                       response := None |}
                              | inr err => ThrownSDKError err
                              end))).
  { unfold get. rewrite Hk. cbn [negb].
    unfold try_catch, bind, fetch, json_of. rewrite Hnet, Hbody, Hst, Hmem.
    cbn [negb lift bind ret]. rewrite throw_ShhedSDKError_run.
    unfold new_ShhedSDKError.
    destruct (ToString (detail_or_status detail res)); reflexivity. }
  exists detail. split; [exact Hmem|]. split; [|split].
  - intros Hfalsy. rewrite Hrun.
    destruct detail as [d|]; cbn [detail_or_status]; [rewrite Hfalsy|]; reflexivity.
  - intros d text -> Htruthy Htext. rewrite Hrun.
    cbn [detail_or_status]. rewrite Htruthy.
    unfold new_ShhedSDKError. rewrite Htext. reflexivity.
  - intros s -> Hs. apply truthy_string_nonempty in Hs. rewrite Hrun.
    cbn [detail_or_status truthy]. rewrite Hs. reflexivity.
Qed.

(** A failing response whose body is the JSON value [null]: reading
    [detail] off it raises a TypeError inside the [try] block, and the
    HTTP status is lost. *)
Lemma get_null_body (keyName : string) (res : Response) :
  keyName <> "" ->
  net (get_request this keyName) = inr res ->
  res_json res = inr JNull ->
  exists err,
    outcome (get this keyName net) = Rejected (ThrownSDKError err)
    /\ statusCode err = 0%N.
Proof.
  intros Hk Hnet Hbody. apply truthy_string_nonempty in Hk.
  unfold get. rewrite Hk. cbn [negb].
  unfold try_catch, bind, fetch, json_of. rewrite Hnet, Hbody.
  destruct (ok res); eexists; split; reflexivity.
Qed.

(** The success path: the call resolves to the body's [key_value]. *)
Lemma get_success (keyName : string) (res : Response) (body : json) (v : option json) :
  keyName <> "" ->
  net (get_request this keyName) = inr res ->
  (200 <= status res <= 299)%N ->
  res_json res = inr body ->
  member body "key_value" = inr v ->
  get this keyName net
  = ([Fetched (get_request this keyName); ParsedBody res], Resolved v).
Proof.
  intros Hk Hnet Hst Hbody Hmem.
  apply truthy_string_nonempty in Hk. apply ok_2xx in Hst.
  unfold get. rewrite Hk. cbn [negb].
  unfold try_catch, bind, fetch, json_of. rewrite Hnet, Hbody, Hst, Hmem.
  reflexivity.
Qed.

End GetFailures.

(** ** health-check *)

Section HealthCheck.

Variable this : Shhed.
Variable net : Transport.

Lemma test_effects :
  effects (test this net) = [Fetched (test_request this)].
Proof.
  unfold test, try_catch, bind, fetch.
  destruct (net (test_request this)) as [e|res].
  - unfold test_catch. destruct (instanceof_ShhedSDKError e); reflexivity.
  - destruct (ok res); reflexivity.
Qed.

(** C8.  The three ways a health check ends.  A response with a status
    in 200..299 resolves the call to [true]; a response with any other
    status rejects it with a [ShhedSDKError] carrying that status and
    the message [Health check failed: HTTP <status>]; in both the one
    effect is the request, so the body is never parsed.  A request that
    never completes, [fetch] rejecting with an error of message [msg],
    rejects the call with a [ShhedSDKError] of status code 0 and message
    [Connection test failed: <msg>]. *)
Theorem test_outcomes :
  (forall res,
      net (test_request this) = inr res ->
      (200 <= status res <= 299)%N ->
      test this net = ([Fetched (test_request this)], Resolved true))
  /\ (forall res,
      net (test_request this) = inr res ->
      ~ (200 <= status res <= 299)%N ->
      test this net
      = ([Fetched (test_request this)],
         Rejected (ThrownSDKError
           {| name := "ShhedSDKError";
              message := "Health check failed: HTTP " +:+ decimal (status res);
              statusCode := status res;
              response := None |})))
  /\ (forall class msg,
      net (test_request this) = inl (ThrownError class msg) ->
      test this net
      = ([Fetched (test_request this)],
         Rejected (ThrownSDKError
           {| name := "ShhedSDKError";
              message := "Connection test failed: " +:+ msg;
              statusCode := 0;
              response := None |})))
  /\ parses (effects (test this net)) = [].
Proof.
  repeat split.
  - intros res Hnet Hst. apply ok_2xx in Hst.
    unfold test, try_catch, bind, fetch. rewrite Hnet, Hst. reflexivity.
  - intros res Hnet Hst. apply not_ok_2xx in Hst.
    unfold test, try_catch, bind, fetch. rewrite Hnet, Hst. reflexivity.
  - intros class msg Hnet.
    unfold test, try_catch, bind, fetch. rewrite Hnet. reflexivity.
  - rewrite test_effects. reflexivity.
Qed.

(** C9.  Whatever the stored configuration, a health check sends one
    request, and its headers are the single entry
    [Content-Type: application/json]: there is no [Authorization]
    header, nor any other. *)
Theorem test_sends_no_credentials :
  exists req,
    requests (effects (test this net)) = [req]
    /\ req_method req = "GET"
    /\ req_headers req = {[ "Content-Type" := "application/json" ]}
    /\ dom (req_headers req) = {[ "Content-Type" ]}
    /\ req_headers req !! "Authorization" = None.
Proof.
  exists (test_request this). rewrite test_effects.
  cbn [test_request req_headers req_method].
  split; [reflexivity|]. split; [reflexivity|]. split; [reflexivity|].
  split.
  - apply dom_singleton_L.
  - apply lookup_singleton_ne. discriminate.
Qed.

End HealthCheck.

(** ** fetch-secret: the request *)

Section GetRequest.

Variable URL_parses : string -> bool.

Lemma constructor_inr (cfg : ShhedConfig) (this : Shhed) :
  constructor URL_parses cfg = inr this ->
  this = {| config := cfg;
            endpoint := or_default (Types.endpoint cfg) default_endpoint |}.
Proof.
  unfold constructor. destruct (validateConfig URL_parses cfg); congruence.
Qed.

Lemma get_headers_dom (this : Shhed) :
  dom (get_headers this) = {[ "Authorization"; "X-Project-ID"; "Content-Type" ]}.
Proof.
  unfold get_headers. rewrite !dom_insert_L, dom_singleton_L. set_solver.
Qed.

Lemma get_headers_lookup (this : Shhed) :
  get_headers this !! "Authorization" = Some ("Bearer " +:+ authToken this)
  /\ get_headers this !! "X-Project-ID" = Some (projectId (config this))
  /\ get_headers this !! "Content-Type" = Some "application/json".
Proof.
  unfold get_headers. split; [|split].
  - apply lookup_insert_eq.
  - rewrite lookup_insert_ne by discriminate. apply lookup_insert_eq.
  - rewrite !lookup_insert_ne by discriminate. apply lookup_singleton_eq.
Qed.

(** C2, as the code has it.  A call with a name sends one request, and
    every request a call sends carries exactly three headers:
    [Authorization], [X-Project-ID] with the configured project
    identifier, and [Content-Type: application/json].  The
    [Authorization] value is [Bearer <accessKey>:<secretKey>] when the
    configuration holds a secret key that is not the empty string, and
    [Bearer <accessKey>] when it holds none or an empty one. *)
Theorem get_request_headers
    (cfg : ShhedConfig) (this : Shhed) (keyName : string) (net : Transport) :
  constructor URL_parses cfg = inr this ->
  (keyName <> "" -> exists req, requests (effects (get this keyName net)) = [req])
  /\ (forall req,
      req ∈ requests (effects (get this keyName net)) ->
      dom (req_headers req) = {[ "Authorization"; "X-Project-ID"; "Content-Type" ]}
      /\ req_headers req !! "X-Project-ID" = Some (projectId cfg)
      /\ req_headers req !! "Content-Type" = Some "application/json"
      /\ req_headers req !! "Authorization"
         = Some (match secret_key cfg with
                 | Some (String c sk) =>
                     "Bearer " +:+ access_key cfg +:+ ":" +:+ String c sk
                 | Some EmptyString | None => "Bearer " +:+ access_key cfg
                 end)).
Proof.
  intros Hnew. apply constructor_inr in Hnew.
  split.
  - intros Hk. exists (get_request this keyName). now apply get_requests.
  - intros req Hreq.
    destruct (decide (keyName = "")) as [->|Hk].
    + rewrite get_requests_empty_name in Hreq. inversion Hreq.
    + rewrite (get_requests this net keyName Hk) in Hreq.
      apply list_elem_of_singleton in Hreq. subst req.
      cbn [get_request req_headers].
      destruct (get_headers_lookup this) as (Ha & Hp & Hc).
      rewrite get_headers_dom, Ha, Hp, Hc. subst this.
      repeat split.
      unfold authToken. cbn [config].
      destruct (secret_key cfg) as [[|c sk]|]; reflexivity.
Qed.

Lemma validateConfig_with_secret_key (cfg : ShhedConfig) (sk : option string) :
  validateConfig URL_parses (with_secret_key cfg sk) = validateConfig URL_parses cfg.
Proof. reflexivity. Qed.

(** C10.  A configuration whose [secret_key] is the empty string makes
    the same client as one without [secret_key].  The bearer credential
    is the access key alone; a call with a name sends one request, the
    same for both clients, and its [Authorization] header is
    [Bearer <accessKey>]; the whole run of a call is the same.  A secret
    key that is not empty puts [Bearer <accessKey>:<secretKey>] on the
    request: what decides is whether the stored value is truthy. *)
Theorem empty_secret_key_as_omitted
    (cfg : ShhedConfig) (blank omitted : Shhed) (keyName : string) (net : Transport) :
  constructor URL_parses (with_secret_key cfg (Some "")) = inr blank ->
  constructor URL_parses (with_secret_key cfg None) = inr omitted ->
  authToken blank = access_key cfg
  /\ authToken omitted = access_key cfg
  /\ get_request blank keyName = get_request omitted keyName
  /\ get blank keyName net = get omitted keyName net
  /\ (keyName <> "" ->
      exists req,
        requests (effects (get blank keyName net)) = [req]
        /\ requests (effects (get omitted keyName net)) = [req]
        /\ req_headers req !! "Authorization" = Some ("Bearer " +:+ access_key cfg))
  /\ (forall sk full,
      sk <> "" ->
      constructor URL_parses (with_secret_key cfg (Some sk)) = inr full ->
      authToken full = access_key cfg +:+ ":" +:+ sk
      /\ (keyName <> "" ->
          exists req,
            requests (effects (get full keyName net)) = [req]
            /\ req_headers req !! "Authorization"
               = Some ("Bearer " +:+ access_key cfg +:+ ":" +:+ sk))).
Proof.
  intros Hb Ho. apply constructor_inr in Hb, Ho.
  assert (Hreq : get_request blank keyName = get_request omitted keyName)
    by (subst; reflexivity).
  assert (Hrun : get blank keyName net = get omitted keyName net)
    by (unfold get; rewrite Hreq; reflexivity).
  split; [subst; reflexivity|]. split; [subst; reflexivity|].
  split; [exact Hreq|]. split; [exact Hrun|]. split.
  - intros Hk. exists (get_request blank keyName).
    split; [now apply get_requests|].
    split; [rewrite <- Hrun; now apply get_requests|].
    cbn [get_request req_headers].
    rewrite (proj1 (get_headers_lookup blank)). subst blank. reflexivity.
  - intros sk full Hsk Hf. apply constructor_inr in Hf.
    assert (Htoken : authToken full = access_key cfg +:+ ":" +:+ sk).
    { subst full. apply truthy_string_nonempty in Hsk.
      unfold authToken. cbn. rewrite Hsk. reflexivity. }
    split; [exact Htoken|].
    intros Hk. exists (get_request full keyName).
    split; [now apply get_requests|].
    cbn [get_request req_headers].
    rewrite (proj1 (get_headers_lookup full)), Htoken. reflexivity.
Qed.

(** The URL of the request for a name, by its octets. *)
Lemma get_request_url_octets (cfg : ShhedConfig) (this : Shhed) (name : string) :
  constructor URL_parses cfg = inr this ->
  req_url (get_request this name)
  = strip_trailing_slash
      (match Types.endpoint cfg with
       | Some (String c e) => String c e
       | Some EmptyString | None => "https://api.shhed.io"
       end)
    +:+ "/v1/keys/" +:+ encodeURIComponent name.
Proof.
  intros Hnew. apply constructor_inr in Hnew.
  subst this. cbn [get_request req_url]. unfold get_url. cbn [endpoint].
  destruct (Types.endpoint cfg) as [[|c e]|]; reflexivity.
Qed.

(** C5, as the code has it.  A call with a name that is not empty and
    holds no unpaired surrogate (a name that has UTF-8 octets) sends one
    GET request.  Its URL is the base URL, less one trailing slash,
    followed by [/v1/keys/] and the percent-encoded name, which is what
    [encodeURIComponent] returns for the name; the base URL is the
    configured endpoint when there is one and it is not the empty
    string, and [https://api.shhed.io] otherwise.  The encoded name
    decodes back to the name, and [KEY WITH SPACES] is sent as
    [KEY%20WITH%20SPACES]. *)
Theorem get_request_url
    (cfg : ShhedConfig) (this : Shhed) (keyName : list N) (name : string)
    (net : Transport) :
  constructor URL_parses cfg = inr this ->
  keyName <> [] ->
  utf8 keyName = Some name ->
  exists req,
    requests (effects (get_units this keyName net)) = [req]
    /\ req_method req = "GET"
    /\ req_url req
       = strip_trailing_slash
           (match Types.endpoint cfg with
            | Some (String c e) => String c e
            | Some EmptyString | None => "https://api.shhed.io"
            end)
         +:+ "/v1/keys/" +:+ encodeURIComponent name
    /\ encodeURIComponent_units keyName = inr (encodeURIComponent name)
    /\ percent_decode (encodeURIComponent name) = Some name
    /\ (name = "KEY WITH SPACES" ->
        exists base, req_url req = base +:+ "/v1/keys/KEY%20WITH%20SPACES").
Proof.
  intros Hnew Hk Hname.
  pose proof (utf8_nonempty keyName name Hk Hname) as Hnonempty.
  rewrite (get_units_octets this keyName name Hk Hname).
  exists (get_request this name).
  split; [now apply get_requests|]. split; [reflexivity|].
  pose proof (get_request_url_octets cfg this name Hnew) as Hurl.
  split; [exact Hurl|].
  split; [unfold encodeURIComponent_units; now rewrite Hname|].
  split; [apply percent_decode_encode|].
  intros ->. rewrite Hurl. eexists. reflexivity.
Qed.

(** The checks of [validateConfig], one lemma each. *)

Lemma check_access_key_present (cfg : ShhedConfig) :
  access_key cfg = "" ->
  constructor URL_parses cfg = inl (ThrownError "Error" "Shhed access_key is required").
Proof.
  intros Hak. unfold constructor, validateConfig. rewrite Hak. reflexivity.
Qed.

Lemma check_projectId_present (cfg : ShhedConfig) :
  access_key cfg <> "" -> projectId cfg = "" ->
  constructor URL_parses cfg = inl (ThrownError "Error" "Shhed projectId is required").
Proof.
  intros Hak Hpid. apply truthy_string_nonempty in Hak.
  unfold constructor, validateConfig. rewrite Hak, Hpid. reflexivity.
Qed.

Lemma check_access_key_prefix (cfg : ShhedConfig) :
  access_key cfg <> "" -> projectId cfg <> "" ->
  startsWith (access_key cfg) "ak_" = false ->
  constructor URL_parses cfg
  = inl (ThrownError "Error"
           ("Shhed access_key must start with " +:+ dquote +:+ "ak_" +:+ dquote)).
Proof.
  intros Hak Hpid Hpre. apply truthy_string_nonempty in Hak, Hpid.
  unfold constructor, validateConfig. rewrite Hak, Hpid, Hpre. reflexivity.
Qed.

Lemma check_endpoint_parses (cfg : ShhedConfig) (e : string) :
  access_key cfg <> "" -> projectId cfg <> "" ->
  startsWith (access_key cfg) "ak_" = true ->
  Types.endpoint cfg = Some e -> e <> "" -> URL_parses e = false ->
  constructor URL_parses cfg
  = inl (ThrownError "Error" "Shhed endpoint must be a valid URL").
Proof.
  intros Hak Hpid Hpre Hend He Hurl. apply truthy_string_nonempty in Hak, Hpid, He.
  unfold constructor, validateConfig.
  rewrite Hak, Hpid, Hpre, Hend, He, Hurl. reflexivity.
Qed.

Lemma checks_passed (cfg : ShhedConfig) :
  access_key cfg <> "" -> projectId cfg <> "" ->
  startsWith (access_key cfg) "ak_" = true ->
  (forall e, Types.endpoint cfg = Some e -> e <> "" -> URL_parses e = true) ->
  constructor URL_parses cfg
  = inr {| config := cfg;
           endpoint := or_default (Types.endpoint cfg) default_endpoint |}.
Proof.
  intros Hak Hpid Hpre Hall. apply truthy_string_nonempty in Hak, Hpid.
  unfold constructor, validateConfig. rewrite Hak, Hpid, Hpre. cbn [negb].
  destruct (Types.endpoint cfg) as [e|]; [|reflexivity].
  destruct (truthy_string e) eqn:He; [|reflexivity].
  apply truthy_string_nonempty in He. rewrite (Hall e eq_refl He). reflexivity.
Qed.

(** C4, as the code has it.  Construction checks, in this order: the
    access key is not empty; the project identifier is not empty; the
    access key starts with [ak_]; the endpoint, when there is one and it
    is not the empty string, parses as a URL.  The first check that
    fails decides the error, each check has a message of its own, and a
    configuration that passes all four makes a client holding it.  An
    endpoint that is the empty string is not checked. *)
Theorem construction_checks (cfg : ShhedConfig) :
  (access_key cfg = "" ->
   constructor URL_parses cfg = inl (ThrownError "Error" "Shhed access_key is required"))
  /\ (access_key cfg <> "" -> projectId cfg = "" ->
      constructor URL_parses cfg = inl (ThrownError "Error" "Shhed projectId is required"))
  /\ (access_key cfg <> "" -> projectId cfg <> "" ->
      startsWith (access_key cfg) "ak_" = false ->
      constructor URL_parses cfg
      = inl (ThrownError "Error"
               ("Shhed access_key must start with " +:+ dquote +:+ "ak_" +:+ dquote)))
  /\ (forall e,
      access_key cfg <> "" -> projectId cfg <> "" ->
      startsWith (access_key cfg) "ak_" = true ->
      Types.endpoint cfg = Some e -> e <> "" -> URL_parses e = false ->
      constructor URL_parses cfg
      = inl (ThrownError "Error" "Shhed endpoint must be a valid URL"))
  /\ (access_key cfg <> "" -> projectId cfg <> "" ->
      startsWith (access_key cfg) "ak_" = true ->
      (forall e, Types.endpoint cfg = Some e -> e <> "" -> URL_parses e = true) ->
      exists this, constructor URL_parses cfg = inr this /\ config this = cfg)
  /\ ((exists err, constructor URL_parses cfg = inl err)
      <-> access_key cfg = ""
          \/ projectId cfg = ""
          \/ startsWith (access_key cfg) "ak_" = false
          \/ exists e, Types.endpoint cfg = Some e /\ e <> "" /\ URL_parses e = false)
  /\ NoDup [ "Shhed access_key is required";
             "Shhed projectId is required";
             "Shhed access_key must start with " +:+ dquote +:+ "ak_" +:+ dquote;
             "Shhed endpoint must be a valid URL" ].
Proof.
  split; [apply check_access_key_present|].
  split; [apply check_projectId_present|].
  split; [apply check_access_key_prefix|].
  split; [intros e; apply check_endpoint_parses|].
  split; [intros Hak Hpid Hpre Hall; eexists; split;
          [apply checks_passed; assumption | reflexivity]|].
  split; [|repeat constructor; rewrite ?elem_of_cons, ?elem_of_nil; cbv; intuition discriminate].
  destruct (decide (access_key cfg = "")) as [Hak|Hak].
  { split; [now left | intros _; eexists; now apply check_access_key_present]. }
  destruct (decide (projectId cfg = "")) as [Hpid|Hpid].
  { split; [now right; left | intros _; eexists; now apply check_projectId_present]. }
  destruct (startsWith (access_key cfg) "ak_") eqn:Hpre.
  2:{ split; [now right; right; left
             | intros _; eexists; now apply check_access_key_prefix]. }
  destruct (Types.endpoint cfg) as [e|] eqn:Hend.
  2:{ rewrite checks_passed by (try assumption; intros; congruence).
      split; [intros [err Herr]; discriminate Herr|].
      intros [H|[H|[H|(e & H & _)]]]; congruence. }
  destruct (decide (e = "")) as [He|He].
  { rewrite checks_passed by (try assumption; intros; congruence).
    split; [intros [err Herr]; discriminate Herr|].
    intros [H|[H|[H|(e' & H & He' & _)]]]; congruence. }
  destruct (URL_parses e) eqn:Hurl.
  - rewrite checks_passed by (try assumption; intros; congruence).
    split; [intros [err Herr]; discriminate Herr|].
    intros [H|[H|[H|(e' & H & He' & Hu)]]]; congruence.
  - split; [intros _; right; right; right; exists e; repeat split; assumption|].
    intros _. eexists. now apply check_endpoint_parses with (e := e).
Qed.

End GetRequest.

(** ** Concrete runs *)

Section ConcreteRuns.
Import Samples.

(** *** Where the specification's wording and the client part *)

(** C1 as worded fails on a 404 whose body is [{ detail: "" }]: the
    member is present, and the message is the status line, not the
    (empty) detail. *)
Lemma blank_detail_counterexample :
  ok blankDetail = false
  /\ res_json blankDetail = inr (JObject {[ "detail" := JString "" ]})
  /\ message (Stated.server_failure blankDetail (JObject {[ "detail" := JString "" ]})) = ""
  /\ outcome (get kv "MISSING_KEY" (always (inr blankDetail)))
     = Rejected (ThrownSDKError
         {| name := "ShhedSDKError";
            message := "HTTP 404: Not Found";
            statusCode := 404;
            response := Some (JObject {[ "detail" := JString "" ]}) |})
  /\ outcome (get kv "MISSING_KEY" (always (inr blankDetail)))
     <> Rejected (ThrownSDKError
          (Stated.server_failure blankDetail (JObject {[ "detail" := JString "" ]}))).
Proof.
  split; [reflexivity|]. split; [reflexivity|]. split; [reflexivity|].
  split; [reflexivity|].
  intros H.
  apply (f_equal (fun r => match r with
                           | Rejected (ThrownSDKError e) => message e
                           | _ => EmptyString
                           end)) in H.
  vm_compute in H. discriminate H.
Qed.

(** C2 as worded fails when the secret key is supplied as the empty
    string: the header is [Bearer ak_test123], without the colon. *)
Lemma blank_secret_key_counterexample :
  constructor URL_has_scheme blankSecretConfig = inr (client_of blankSecretConfig)
  /\ requests (effects (get (client_of blankSecretConfig) "TEST_KEY" (always (inr keyFound))))
     = [get_request (client_of blankSecretConfig) "TEST_KEY"]
  /\ req_headers (get_request (client_of blankSecretConfig) "TEST_KEY") !! "Authorization"
     = Some "Bearer ak_test123"
  /\ Stated.authorization blankSecretConfig = "Bearer ak_test123:"
  /\ req_headers (get_request (client_of blankSecretConfig) "TEST_KEY") !! "Authorization"
     <> Some (Stated.authorization blankSecretConfig).
Proof.
  split; [reflexivity|]. split; [reflexivity|]. split; [reflexivity|].
  split; [reflexivity|].
  intros H. vm_compute in H. discriminate H.
Qed.

(** C3 as worded fails on any body that does not parse: the parser's
    error does not reach the caller, a [ShhedSDKError] of status code 0
    does. *)
Lemma unparsable_body_counterexample :
  res_json notJSON = inl syntaxError
  /\ outcome (get kv "TEST_KEY" (always (inr notJSON))) <> Rejected syntaxError
  /\ outcome (get kv "TEST_KEY" (always (inr notJSON)))
     = Rejected (ThrownSDKError
         {| name := "ShhedSDKError";
            message := "Failed to fetch key " +:+ dquote +:+ "TEST_KEY" +:+ dquote
                       +:+ ": Unexpected end of JSON input";
            statusCode := 0;
            response := None |}).
Proof.
  split; [reflexivity|]. split; [|reflexivity].
  intros H. vm_compute in H. discriminate H.
Qed.

(** C4 as worded fails when the endpoint is supplied as the empty
    string: it does not parse as a URL, and construction succeeds. *)
Lemma blank_endpoint_counterexample :
  Types.endpoint blankEndpointConfig = Some ""
  /\ URL_has_scheme "" = false
  /\ Stated.construction_fails URL_has_scheme blankEndpointConfig
  /\ constructor URL_has_scheme blankEndpointConfig = inr (client_of blankEndpointConfig)
  /\ ~ ((exists err, constructor URL_has_scheme blankEndpointConfig = inl err)
        <-> Stated.construction_fails URL_has_scheme blankEndpointConfig).
Proof.
  assert (Hfails : Stated.construction_fails URL_has_scheme blankEndpointConfig).
  { right; right; right. exists "". split; reflexivity. }
  split; [reflexivity|]. split; [reflexivity|]. split; [exact Hfails|].
  split; [reflexivity|].
  intros [_ H]. destruct (H Hfails) as [err Herr]. discriminate Herr.
Qed.

(** C5 as worded fails for the same configuration: the supplied
    endpoint is the empty string, and the request goes to the default
    origin. *)
Lemma blank_endpoint_url_counterexample :
  constructor URL_has_scheme blankEndpointConfig = inr (client_of blankEndpointConfig)
  /\ requests (effects (get (client_of blankEndpointConfig) "TEST_KEY" (always (inr keyFound))))
     = [get_request (client_of blankEndpointConfig) "TEST_KEY"]
  /\ req_url (get_request (client_of blankEndpointConfig) "TEST_KEY")
     = "https://api.shhed.io/v1/keys/TEST_KEY"
  /\ Stated.key_url blankEndpointConfig "TEST_KEY" = "/v1/keys/TEST_KEY"
  /\ req_url (get_request (client_of blankEndpointConfig) "TEST_KEY")
     <> Stated.key_url blankEndpointConfig "TEST_KEY".
Proof.
  split; [reflexivity|]. split; [reflexivity|]. split; [reflexivity|].
  split; [reflexivity|].
  intros H. vm_compute in H. discriminate H.
Qed.

(** *** The properties at the inputs of the test suite *)

Lemma get_transport_failure_witness :
  "TEST_KEY" <> ""
  /\ always (inl networkError) (get_request kv "TEST_KEY") = inl networkError
  /\ get kv "TEST_KEY" (always (inl networkError))
     = ([Fetched (get_request kv "TEST_KEY")],
        Rejected (ThrownSDKError
          {| name := "ShhedSDKError";
             message := "Failed to fetch key " +:+ dquote +:+ "TEST_KEY" +:+ dquote
                        +:+ ": " +:+ "Network error";
             statusCode := 0;
             response := None |})).
Proof.
  split; [discriminate|]. split; [reflexivity|].
  apply (get_transport_failure kv (always (inl networkError))
           "TEST_KEY" "TypeError" "Network error");
    [discriminate | reflexivity].
Defined.

Lemma get_unparsable_body_is_wrapped_witness :
  "TEST_KEY" <> ""
  /\ always (inr notJSON) (get_request kv "TEST_KEY") = inr notJSON
  /\ res_json notJSON = inl (ThrownError "SyntaxError" "Unexpected end of JSON input")
  /\ get kv "TEST_KEY" (always (inr notJSON))
     = ([Fetched (get_request kv "TEST_KEY"); ParsedBody notJSON],
        Rejected (ThrownSDKError
          {| name := "ShhedSDKError";
             message := "Failed to fetch key " +:+ dquote +:+ "TEST_KEY" +:+ dquote
                        +:+ ": " +:+ "Unexpected end of JSON input";
             statusCode := 0;
             response := None |})).
Proof.
  split; [discriminate|]. split; [reflexivity|]. split; [reflexivity|].
  apply (get_unparsable_body_is_wrapped kv (always (inr notJSON))
           "TEST_KEY" "SyntaxError" "Unexpected end of JSON input" notJSON);
    [discriminate | reflexivity | reflexivity].
Defined.

Lemma status_404_not_2xx : ~ (200 <= 404 <= 299)%N.
Proof. intros [_ H]. apply H. reflexivity. Qed.

Lemma status_500_not_2xx : ~ (200 <= 500 <= 299)%N.
Proof. intros [_ H]. apply H. reflexivity. Qed.

Lemma status_200_2xx : (200 <= 200 <= 299)%N.
Proof. split; discriminate. Qed.

(** The 404 of the test suite: the message is the server's detail. *)
Lemma get_server_failure_witness :
  "MISSING_KEY" <> ""
  /\ ~ (200 <= status keyMissing <= 299)%N
  /\ res_json keyMissing = inr (JObject {[ "detail" := JString "API key not found" ]})
  /\ get kv "MISSING_KEY" (always (inr keyMissing))
     = ([Fetched (get_request kv "MISSING_KEY"); ParsedBody keyMissing],
        Rejected (ThrownSDKError
          {| name := "ShhedSDKError";
             message := "API key not found";
             statusCode := 404;
             response := Some (JObject {[ "detail" := JString "API key not found" ]}) |})).
Proof.
  split; [discriminate|]. split; [exact status_404_not_2xx|]. split; [reflexivity|].
  destruct (get_server_failure kv (always (inr keyMissing)) "MISSING_KEY" keyMissing
              (JObject {[ "detail" := JString "API key not found" ]}))
    as (detail & Hmem & _ & _ & Hstring);
    [discriminate | reflexivity | exact status_404_not_2xx | reflexivity | discriminate |].
  apply (Hstring "API key not found"); [|discriminate].
  vm_compute in Hmem. injection Hmem as <-. reflexivity.
Defined.

Lemma test_outcomes_witness :
  test kv (always (inr healthy)) = ([Fetched (test_request kv)], Resolved true)
  /\ test kv (always (inr unhealthy))
     = ([Fetched (test_request kv)],
        Rejected (ThrownSDKError
          {| name := "ShhedSDKError";
             message := "Health check failed: HTTP 500";
             statusCode := 500;
             response := None |}))
  /\ test kv (always (inl networkError))
     = ([Fetched (test_request kv)],
        Rejected (ThrownSDKError
          {| name := "ShhedSDKError";
             message := "Connection test failed: Network error";
             statusCode := 0;
             response := None |})).
Proof.
  split; [|split].
  - apply (proj1 (test_outcomes kv (always (inr healthy))) healthy);
      [reflexivity | exact status_200_2xx].
  - apply (proj1 (proj2 (test_outcomes kv (always (inr unhealthy)))) unhealthy);
      [reflexivity | exact status_500_not_2xx].
  - apply (proj1 (proj2 (proj2 (test_outcomes kv (always (inl networkError)))))
             "TypeError" "Network error").
    reflexivity.
Defined.

Lemma get_request_headers_witness :
  constructor URL_has_scheme validConfig = inr kv
  /\ (forall req,
      req ∈ requests (effects (get kv "TEST_KEY" (always (inr keyFound)))) ->
      req_headers req !! "Authorization" = Some "Bearer ak_test123:secret123")
  /\ (forall req,
      req ∈ requests (effects (get (client_of publicConfig) "TEST_KEY" (always (inr keyFound)))) ->
      req_headers req !! "Authorization" = Some "Bearer ak_test123").
Proof.
  split; [reflexivity|]. split.
  - intros req Hreq.
    apply (proj2 (get_request_headers URL_has_scheme validConfig kv "TEST_KEY"
                    (always (inr keyFound)) eq_refl) req Hreq).
  - intros req Hreq.
    apply (proj2 (get_request_headers URL_has_scheme publicConfig (client_of publicConfig)
                    "TEST_KEY" (always (inr keyFound)) eq_refl) req Hreq).
Defined.

Lemma empty_secret_key_as_omitted_witness :
  constructor URL_has_scheme (with_secret_key validConfig (Some ""))
  = inr (client_of blankSecretConfig)
  /\ constructor URL_has_scheme (with_secret_key validConfig None)
     = inr (client_of publicConfig)
  /\ "TEST_KEY" <> ""
  /\ authToken (client_of blankSecretConfig) = "ak_test123"
  /\ get (client_of blankSecretConfig) "TEST_KEY" (always (inr keyFound))
     = get (client_of publicConfig) "TEST_KEY" (always (inr keyFound))
  /\ exists req,
       requests (effects (get (client_of blankSecretConfig) "TEST_KEY" (always (inr keyFound))))
       = [req]
       /\ requests (effects (get (client_of publicConfig) "TEST_KEY" (always (inr keyFound))))
          = [req]
       /\ req_headers req !! "Authorization" = Some "Bearer ak_test123".
Proof.
  split; [reflexivity|]. split; [reflexivity|]. split; [discriminate|].
  destruct (empty_secret_key_as_omitted URL_has_scheme validConfig
              (client_of blankSecretConfig) (client_of publicConfig)
              "TEST_KEY" (always (inr keyFound)) eq_refl eq_refl)
    as (Hblank & _ & _ & Hrun & Hheader & _).
  split; [exact Hblank|]. split; [exact Hrun|].
  apply Hheader. discriminate.
Defined.

Lemma get_request_url_witness :
  constructor URL_has_scheme localConfig = inr (client_of localConfig)
  /\ code_units "KEY WITH SPACES" <> []
  /\ utf8 (code_units "KEY WITH SPACES") = Some "KEY WITH SPACES"
  /\ exists req,
      requests (effects (get_units (client_of localConfig) (code_units "KEY WITH SPACES")
                           (always (inr keyFound))))
      = [req]
      /\ req_url req = "http://localhost:8000/v1/keys/KEY%20WITH%20SPACES".
Proof.
  split; [reflexivity|]. split; [discriminate|]. split; [reflexivity|].
  destruct (get_request_url URL_has_scheme localConfig (client_of localConfig)
              (code_units "KEY WITH SPACES") "KEY WITH SPACES"
              (always (inr keyFound)) eq_refl)
    as (req & Hreq & _ & Hurl & _); [discriminate|reflexivity|].
  exists req. split; [exact Hreq | exact Hurl].
Defined.

Lemma construction_checks_witness :
  constructor URL_has_scheme noAccessKey
  = inl (ThrownError "Error" "Shhed access_key is required")
  /\ constructor URL_has_scheme noProjectId
     = inl (ThrownError "Error" "Shhed projectId is required")
  /\ constructor URL_has_scheme badAccessKey
     = inl (ThrownError "Error"
              ("Shhed access_key must start with " +:+ dquote +:+ "ak_" +:+ dquote))
  /\ constructor URL_has_scheme badEndpoint
     = inl (ThrownError "Error" "Shhed endpoint must be a valid URL")
  /\ exists this, constructor URL_has_scheme localConfig = inr this
                  /\ config this = localConfig.
Proof.
  split; [|split; [|split; [|split]]].
  - apply (proj1 (construction_checks URL_has_scheme noAccessKey)). reflexivity.
  - apply (proj1 (proj2 (construction_checks URL_has_scheme noProjectId)));
      [discriminate | reflexivity].
  - apply (proj1 (proj2 (proj2 (construction_checks URL_has_scheme badAccessKey))));
      [discriminate | discriminate | reflexivity].
  - apply (proj1 (proj2 (proj2 (proj2 (construction_checks URL_has_scheme badEndpoint))))
             "invalid-url");
      [discriminate | discriminate | reflexivity | reflexivity | discriminate | reflexivity].
  - apply (proj1 (proj2 (proj2 (proj2 (proj2
             (construction_checks URL_has_scheme localConfig))))));
      [discriminate | discriminate | reflexivity |].
    intros e He _. injection He as <-. reflexivity.
Defined.

End ConcreteRuns.

(** * Further properties of the client *)

(** ** How calls settle *)

Section Settling.

Variable this : Shhed.
Variable net : Transport.

Lemma get_catch_wraps (keyName : string) (e : thrown) :
  exists err, get_catch keyName e net = ([], Rejected (ThrownSDKError err)).
Proof.
  unfold get_catch. destruct e as [s|class msg|]; eexists; reflexivity.
Qed.

Lemma test_catch_wraps (e : thrown) :
  exists err, test_catch e net = ([], Rejected (ThrownSDKError err)).
Proof.
  unfold test_catch. destruct e as [s|class msg|]; eexists; reflexivity.
Qed.

(** A call with a name that has octets (not empty, no unpaired
    surrogate) never lets a foreign error through: it resolves, or it is
    rejected with a [ShhedSDKError], whatever the transport and the
    parser do.  [get_foreign_errors] below has every name. *)
Theorem get_rejects_with_ShhedSDKError_only (keyName : string) :
  keyName <> "" ->
  (exists v, outcome (get this keyName net) = Resolved v)
  \/ (exists err, outcome (get this keyName net) = Rejected (ThrownSDKError err)).
Proof.
  intros Hk. apply truthy_string_nonempty in Hk.
  unfold get. rewrite Hk. cbn [negb].
  unfold try_catch, bind, fetch, json_of.
  destruct (net (get_request this keyName)) as [e|res].
  { right. destruct (get_catch_wraps keyName e) as [err ->]. now exists err. }
  destruct (res_json res) as [e|body].
  { right. destruct (get_catch_wraps keyName e) as [err ->]. now exists err. }
  destruct (ok res); cbn [negb].
  - destruct (member body "key_value") as [e|v]; cbn.
    + right. destruct (get_catch_wraps keyName e) as [err ->]. now exists err.
    + left. now exists v.
  - right. destruct (member body "detail") as [e|v]; cbn.
    + destruct (get_catch_wraps keyName e) as [err ->]. now exists err.
    + rewrite throw_ShhedSDKError_run. cbn.
      match goal with
      | |- context [get_catch keyName ?e net] =>
          destruct (get_catch_wraps keyName e) as [err ->]
      end.
      now exists err.
Qed.

(** A health check resolves to [true] or is rejected with a
    [ShhedSDKError]; it never resolves to [false]. *)
Theorem test_true_or_ShhedSDKError :
  outcome (test this net) = Resolved true
  \/ (exists err, outcome (test this net) = Rejected (ThrownSDKError err)).
Proof.
  unfold test, try_catch, bind, fetch.
  destruct (net (test_request this)) as [e|res].
  { right. destruct (test_catch_wraps e) as [err ->]. now exists err. }
  destruct (ok res); cbn [negb].
  - now left.
  - right. eexists. reflexivity.
Qed.

(** A call on the octets of a name is single-shot.  Its effects are
    nothing at all (the empty name), or its one request, or that request
    followed by one parse of the response the request got.
    [get_units_is_single_shot] below has every name. *)
Theorem get_is_single_shot (keyName : string) :
  (keyName = "" /\ effects (get this keyName net) = [])
  \/ (keyName <> "" /\ effects (get this keyName net) = [Fetched (get_request this keyName)])
  \/ (keyName <> ""
      /\ exists res, net (get_request this keyName) = inr res
         /\ effects (get this keyName net)
            = [Fetched (get_request this keyName); ParsedBody res]).
Proof.
  destruct (decide (keyName = "")) as [->|Hk]; [left; now split|].
  right. destruct (get_effects this net keyName Hk) as [H|H]; [left|right]; now split.
Qed.

(** A call lets two foreign errors through, and no other.  Both are
    thrown before the [try] block and before any request: the plain
    [Error] for the empty name, and the URIError of [encodeURIComponent]
    for a name with an unpaired surrogate.  A call with any other name
    resolves, or is rejected with a [ShhedSDKError], whatever the
    transport and the parser do. *)
Theorem get_foreign_errors (keyName : list N) :
  (keyName = []
   /\ get_units this keyName net
      = ([], Rejected (ThrownError "Error" "Key name is required")))
  \/ (keyName <> []
      /\ utf8 keyName = None
      /\ get_units this keyName net = ([], Rejected URIError)
      /\ instanceof_ShhedSDKError URIError = false)
  \/ (keyName <> []
      /\ (exists name, utf8 keyName = Some name)
      /\ ((exists v, outcome (get_units this keyName net) = Resolved v)
          \/ (exists err,
                outcome (get_units this keyName net) = Rejected (ThrownSDKError err)))).
Proof.
  destruct keyName as [|u later] eqn:Hunits; [left; now split|]. right.
  rewrite <- Hunits. assert (Hk : keyName <> []) by (rewrite Hunits; discriminate).
  clear Hunits.
  destruct (utf8 keyName) as [name|] eqn:Hname.
  - right. split; [exact Hk|]. split; [now exists name|].
    rewrite (get_units_octets this keyName name Hk Hname).
    apply get_rejects_with_ShhedSDKError_only.
    exact (utf8_nonempty keyName name Hk Hname).
  - left. split; [exact Hk|]. split; [reflexivity|].
    split; [now apply get_units_unpaired|reflexivity].
Qed.

(** A call is single-shot, for every name.  It performs no effect at all
    exactly when the name is empty or holds an unpaired surrogate.  For
    every other name its effects are its one request, or that request
    followed by one parse of the response the request got: never a
    second request, never a parse of anything else. *)
Theorem get_units_is_single_shot (keyName : list N) :
  ((keyName = [] \/ utf8 keyName = None)
   /\ effects (get_units this keyName net) = [])
  \/ (exists name,
        keyName <> []
        /\ utf8 keyName = Some name
        /\ (effects (get_units this keyName net) = [Fetched (get_request this name)]
            \/ exists res,
                 net (get_request this name) = inr res
                 /\ effects (get_units this keyName net)
                    = [Fetched (get_request this name); ParsedBody res])).
Proof.
  destruct (utf8 keyName) as [name|] eqn:Hname.
  - destruct (decide (keyName = [])) as [->|Hk]; [left; split; [now left|reflexivity]|].
    right. exists name. split; [exact Hk|]. split; [reflexivity|].
    rewrite (get_units_octets this keyName name Hk Hname).
    apply get_effects. exact (utf8_nonempty keyName name Hk Hname).
  - left. split; [now right|]. now rewrite get_units_unpaired.
Qed.

(** Over such a transport a status code other than 0 is always a real
    HTTP status: a rejected call whose failure carries one got a
    response with that status, outside 200..299, whose body parsed, and
    the failure carries that body. *)
Theorem get_status_code_is_http_status (keyName : string) (err : ShhedSDKError) :
  raises_no_ShhedSDKError net ->
  outcome (get this keyName net) = Rejected (ThrownSDKError err) ->
  statusCode err <> 0%N ->
  exists res body,
    net (get_request this keyName) = inr res
    /\ res_json res = inr body
    /\ ~ (200 <= status res <= 299)%N
    /\ statusCode err = status res
    /\ response err = Some body.
Proof.
  intros [Hreq Hparse] Hout Hcode.
  destruct (decide (keyName = "")) as [->|Hk]; [discriminate Hout|].
  apply truthy_string_nonempty in Hk.
  unfold get in Hout. rewrite Hk in Hout. cbn [negb] in Hout.
  unfold try_catch, bind, fetch, json_of in Hout.
  destruct (net (get_request this keyName)) as [e|res] eqn:Hnet.
  { apply Hreq in Hnet. unfold get_catch in Hout. rewrite Hnet in Hout.
    destruct (instanceof_Error e); cbn in Hout;
      injection Hout as <-; now contradiction Hcode. }
  destruct (res_json res) as [e|body] eqn:Hbody.
  { apply (Hparse _ _ _ Hnet) in Hbody. unfold get_catch in Hout. rewrite Hbody in Hout.
    destruct (instanceof_Error e); cbn in Hout;
      injection Hout as <-; now contradiction Hcode. }
  destruct (ok res) eqn:Hok; cbn [negb] in Hout.
  - destruct body; cbn in Hout; try discriminate Hout.
    injection Hout as <-. now contradiction Hcode.
  - destruct (member body "detail") as [e|v] eqn:Hmem.
    + destruct body; try discriminate Hmem. injection Hmem as <-.
      cbn in Hout. injection Hout as <-. now contradiction Hcode.
    + cbn [lift bind ret] in Hout. rewrite throw_ShhedSDKError_run in Hout.
      unfold new_ShhedSDKError in Hout.
      destruct (ToString (detail_or_status v res)) as [text|];
        cbn in Hout; injection Hout as <-.
      * exists res, body.
        split; [reflexivity|]. split; [exact Hbody|].
        split; [now apply not_ok_2xx|]. split; reflexivity.
      * now contradiction Hcode.
Qed.

(** The same for a health check: a status code other than 0 is the
    status of a response that came back, outside 200..299. *)
Theorem test_status_code_is_http_status (err : ShhedSDKError) :
  raises_no_ShhedSDKError net ->
  outcome (test this net) = Rejected (ThrownSDKError err) ->
  statusCode err <> 0%N ->
  exists res,
    net (test_request this) = inr res
    /\ ~ (200 <= status res <= 299)%N
    /\ statusCode err = status res.
Proof.
  intros [Hreq _] Hout Hcode.
  unfold test, try_catch, bind, fetch in Hout.
  destruct (net (test_request this)) as [e|res] eqn:Hnet.
  { apply Hreq in Hnet. unfold test_catch in Hout. rewrite Hnet in Hout.
    cbn in Hout. injection Hout as <-. now contradiction Hcode. }
  destruct (ok res) eqn:Hok; cbn [negb] in Hout; [discriminate Hout|].
  cbn in Hout. injection Hout as <-.
  exists res. repeat split; try reflexivity. now apply not_ok_2xx.
Qed.

(** When a health check cannot reach the server and what [fetch] threw
    is not even an [Error], the failure still has status code 0, and its
    message reads [Connection test failed: Unknown error]. *)
Theorem test_unknown_error :
  net (test_request this) = inl ThrownValue ->
  test this net
  = ([Fetched (test_request this)],
     Rejected (ThrownSDKError
       {| name := "ShhedSDKError";
          message := "Connection test failed: Unknown error";
          statusCode := 0;
          response := None |})).
Proof.
  intros Hnet. unfold test, try_catch, bind, fetch. rewrite Hnet. reflexivity.
Qed.

(** The health check does not look at the credentials: two clients with
    the same endpoint run it alike, whatever their configurations. *)
Theorem test_ignores_credentials (other : Shhed) :
  endpoint other = endpoint this ->
  test other net = test this net.
Proof.
  intros Hend.
  assert (Hreq : test_request other = test_request this).
  { unfold test_request, test_url. now rewrite Hend. }
  unfold test. now rewrite Hreq.
Qed.

(** A failing response whose [detail] is itself a JSON object (a
    structured error).  When that object has no member named [toString],
    the message is [[object Object]], with the HTTP status, and the
    detail survives only in the failure's [response].  When it has one,
    the conversion of the message throws inside the [try] block, and the
    failure the caller gets has status code 0, no [response], and a
    message that quotes the TypeError. *)
Theorem get_object_detail
    (keyName : string) (res : Response)
    (members : gmap string json) (detail : gmap string json) :
  keyName <> "" ->
  net (get_request this keyName) = inr res ->
  ~ (200 <= status res <= 299)%N ->
  res_json res = inr (JObject members) ->
  members !! "detail" = Some (JObject detail) ->
  (detail !! "toString" = None ->
   outcome (get this keyName net)
   = Rejected (ThrownSDKError
       {| name := "ShhedSDKError";
          message := "[object Object]";
          statusCode := status res;
          response := Some (JObject members) |}))
  /\ (is_Some (detail !! "toString") ->
      outcome (get this keyName net)
      = Rejected (ThrownSDKError
          {| name := "ShhedSDKError";
             message := "Failed to fetch key " +:+ dquote +:+ keyName +:+ dquote
                        +:+ ": Cannot convert object to primitive value";
             statusCode := 0;
             response := None |})).
Proof.
  intros Hk Hnet Hst Hbody Hdetail.
  apply truthy_string_nonempty in Hk. apply not_ok_2xx in Hst.
  unfold get. rewrite Hk. cbn [negb].
  unfold try_catch, bind, fetch, json_of. rewrite Hnet, Hbody, Hst.
  cbn [negb member lift]. rewrite Hdetail. cbn [ret].
  rewrite throw_ShhedSDKError_run.
  unfold new_ShhedSDKError. cbn [detail_or_status truthy ToString].
  split.
  - intros Hnone. rewrite Hnone. reflexivity.
  - intros [v Hsome]. rewrite Hsome. reflexivity.
Qed.

(** A successful response resolves the call to the [key_value] member of
    its body and checks nothing else: a body that is an object without
    that member, or no object at all (short of [null]), resolves the call
    to [undefined]. *)
Theorem get_resolves_to_key_value (keyName : string) (res : Response) (body : json) :
  keyName <> "" ->
  net (get_request this keyName) = inr res ->
  (200 <= status res <= 299)%N ->
  res_json res = inr body ->
  body <> JNull ->
  outcome (get this keyName net)
  = Resolved (match body with
              | JObject members => members !! "key_value"
              | _ => None
              end).
Proof.
  intros Hk Hnet Hst Hbody Hnull.
  apply truthy_string_nonempty in Hk. apply ok_2xx in Hst.
  unfold get. rewrite Hk. cbn [negb].
  unfold try_catch, bind, fetch, json_of. rewrite Hnet, Hbody, Hst.
  destruct body; try reflexivity. congruence.
Qed.

End Settling.

(** * The retry helper *)

Import ConfigService.

Section AttemptLists.

Lemma elem_of_attempts_from (i start : N) (count : nat) :
  i ∈ attempts_from start count -> (start <= i < start + N.of_nat count)%N.
Proof.
  revert start. induction count as [|count IH]; intros start Hin; cbn in Hin.
  - inversion Hin.
  - apply elem_of_cons in Hin as [->|Hin]; [lia|].
    apply IH in Hin. lia.
Qed.

Lemma attempts_from_app (start : N) (a b : nat) :
  attempts_from start (a + b)
  = (attempts_from start a ++ attempts_from (start + N.of_nat a) b)%list.
Proof.
  revert start. induction a as [|a IH]; intros start.
  - cbn. f_equal. lia.
  - cbn [Nat.add attempts_from app]. rewrite IH. do 3 f_equal. lia.
Qed.

Lemma length_attempts_from (start : N) (count : nat) :
  length (attempts_from start count) = count.
Proof.
  revert start. induction count as [|count IH]; intros start; cbn; [|rewrite IH]; reflexivity.
Qed.

(** The attempts up to [maxRetries], cut at attempt [k]. *)
Lemma attempts_from_split (maxRetries k : N) :
  (1 <= k <= maxRetries)%N ->
  attempts_from 1 (N.to_nat maxRetries)
  = (attempts_from 1 (N.to_nat (k - 1))
     ++ k :: attempts_from (N.succ k) (N.to_nat (maxRetries - k)))%list.
Proof.
  intros Hk.
  replace (N.to_nat maxRetries)
    with (N.to_nat (k - 1) + S (N.to_nat (maxRetries - k))) by lia.
  rewrite attempts_from_app. cbn [attempts_from].
  replace (1 + N.of_nat (N.to_nat (k - 1)))%N with k by lia.
  reflexivity.
Qed.

Lemma timeouts_app (a b : list event) :
  timeouts (a ++ b) = (timeouts a ++ timeouts b)%list.
Proof.
  induction a as [|[line|ev|ms] a IH]; cbn; [reflexivity|exact IH|exact IH|].
  unfold timeouts in IH. now rewrite IH.
Qed.

Lemma client_requests_app (a b : list event) :
  client_requests (a ++ b) = (client_requests a ++ client_requests b)%list.
Proof.
  induction a as [|[line|[req|res]|ms] a IH]; cbn; try exact IH; [reflexivity|].
  unfold client_requests in IH. now rewrite IH.
Qed.

Lemma timeouts_client (log : list effect) : timeouts (List.map Client log) = [].
Proof. induction log as [|ev log IH]; [reflexivity|exact IH]. Qed.

Lemma client_requests_client (log : list effect) :
  client_requests (List.map Client log) = requests log.
Proof.
  induction log as [|[req|res] log IH]; cbn; [reflexivity| |exact IH].
  unfold client_requests in IH. now rewrite IH.
Qed.

End AttemptLists.

Section Retry.

Variable this : ConfigService.
Variable keyName : string.
Variable maxRetries : N.
Variable net : Network.

Local Abbreviation attempt_run i := (get (shhed this) keyName (net i)).
Local Abbreviation loop := (retry_loop this keyName maxRetries net).
Local Abbreviation started i :=
  ([Console (fetching_line keyName i%N maxRetries)]
     ++ List.map Client (effects (attempt_run i%N)))%list.

(** One turn of the loop. *)
Lemma retry_loop_cons (i : N) (later : list N) (lastError : option thrown) :
  loop (i :: later) lastError
  = match outcome (attempt_run i) with
    | Resolved value => ((started i ++ [Console (fetched_line keyName)])%list, Resolved value)
    | Rejected error =>
        if gives_up error then (started i, Rejected error)
        else ((started i
                 ++ (if (i <? maxRetries)%N
                     then [Console (retrying_line (delay i)); Timeout (delay i)]
                     else [])
                 ++ fst (loop later (Some error)))%list,
              snd (loop later (Some error)))
    end.
Proof.
  cbn [retry_loop].
  destruct (outcome (attempt_run i)) as [value|error]; [reflexivity|].
  destruct (gives_up error); [reflexivity|].
  destruct (loop later (Some error)); reflexivity.
Qed.

Lemma started_timeouts (i : N) : timeouts (started i) = [].
Proof. rewrite timeouts_app, timeouts_client. reflexivity. Qed.

Lemma started_requests (i : N) :
  client_requests (started i) = requests (effects (attempt_run i)).
Proof. rewrite client_requests_app, client_requests_client. reflexivity. Qed.

(** The loop over [prefix ++ k :: later]: when the attempts of [prefix]
    fail over, each with a wait, and [k] ends the loop or is the last
    attempt, the call settles as attempt [k] did. *)
Lemma retry_loop_upto (prefix later : list N) (k : N) (lastError : option thrown) :
  (forall i, i ∈ prefix -> fails_over this keyName (net i) /\ (i < maxRetries)%N) ->
  ends_loop this keyName (net k) \/ (later = [] /\ ~ (k < maxRetries)%N) ->
  snd (loop (prefix ++ k :: later)%list lastError) = outcome (attempt_run k)
  /\ timeouts (fst (loop (prefix ++ k :: later)%list lastError)) = delay <$> prefix
  /\ client_requests (fst (loop (prefix ++ k :: later)%list lastError))
     = concat ((fun i => requests (effects (attempt_run i))) <$> (prefix ++ [k])%list).
Proof.
  revert lastError. induction prefix as [|i prefix IH]; intros lastError Hprefix Hk.
  - cbn [app fmap list_fmap concat]. rewrite retry_loop_cons, app_nil_r.
    unfold ends_loop in Hk.
    destruct (outcome (attempt_run k)) as [value|error] eqn:Hout.
    + cbn [fst snd]. split; [reflexivity|].
      rewrite timeouts_app, client_requests_app, started_timeouts, started_requests.
      cbn. rewrite app_nil_r. now split.
    + destruct (gives_up error) eqn:Hgive.
      * cbn [fst snd]. rewrite started_timeouts, started_requests. now split.
      * destruct Hk as [Hk|[-> Hlast]]; [congruence|].
        apply N.ltb_nlt in Hlast. rewrite Hlast.
        cbn [retry_loop fst snd]. rewrite !app_nil_r.
        rewrite started_timeouts, started_requests. now split.
  - destruct (Hprefix i) as [(error & Hout & Hgive) Hlt]; [left|].
    apply N.ltb_lt in Hlt.
    specialize (IH (Some error)
                   (fun j Hj => Hprefix j (proj2 (elem_of_cons _ _ _) (or_intror Hj))) Hk).
    destruct IH as (IHout & IHwait & IHreq).
    cbn [app]. rewrite retry_loop_cons, Hout, Hgive, Hlt. cbn [fst snd].
    split; [exact IHout|].
    rewrite (timeouts_app (started i)), (client_requests_app (started i)).
    rewrite started_timeouts, started_requests, timeouts_app, client_requests_app.
    rewrite IHwait, IHreq. cbn. now split.
Qed.

Lemma get_requests_at_most_one (t : Transport) :
  length (requests (effects (get (shhed this) keyName t))) <= 1.
Proof.
  destruct (decide (keyName = "")) as [Hk|Hk].
  - rewrite Hk. cbn. lia.
  - rewrite (get_requests _ t keyName Hk). cbn. lia.
Qed.

(** Whatever happens, the loop sends at most one request per attempt. *)
Lemma retry_loop_requests (attempts : list N) (lastError : option thrown) :
  length (client_requests (fst (loop attempts lastError))) <= length attempts.
Proof.
  revert lastError. induction attempts as [|i attempts IH]; intros lastError.
  - cbn. lia.
  - rewrite retry_loop_cons.
    pose proof (get_requests_at_most_one (net i)) as Hone.
    destruct (outcome (attempt_run i)) as [value|error].
    + cbn [fst]. rewrite client_requests_app, started_requests. cbn.
      rewrite app_nil_r. lia.
    + destruct (gives_up error).
      * cbn [fst]. rewrite started_requests. cbn. lia.
      * specialize (IH (Some error)). cbn [fst].
        rewrite (client_requests_app (started i)), started_requests.
        rewrite client_requests_app, !length_app.
        destruct (i <? maxRetries)%N; cbn; lia.
Qed.

Lemma requests_of_attempts (attempts : list N) :
  keyName <> "" ->
  concat ((fun i => requests (effects (attempt_run i))) <$> attempts)
  = replicate (length attempts) (get_request (shhed this) keyName).
Proof.
  intros Hk. induction attempts as [|i attempts IH]; [reflexivity|].
  cbn [fmap list_fmap concat length replicate].
  rewrite (get_requests _ (net i) keyName Hk). cbn [app].
  f_equal. exact IH.
Qed.

Lemma requests_of_attempts_empty_name (attempts : list N) :
  keyName = "" ->
  concat ((fun i => requests (effects (attempt_run i))) <$> attempts) = [].
Proof.
  intros ->. induction attempts as [|i attempts IH]; [reflexivity|exact IH].
Qed.

(** The failure a response outside 200..299 with a parsed body gives. *)
Lemma get_failure_outcome (t : Transport) (res : Response) (body : json) :
  keyName <> "" ->
  t (get_request (shhed this) keyName) = inr res ->
  ok res = false ->
  res_json res = inr body ->
  body <> JNull ->
  detail_converts body ->
  exists err,
    outcome (get (shhed this) keyName t) = Rejected (ThrownSDKError err)
    /\ statusCode err = status res.
Proof.
  intros Hk Hnet Hok Hbody Hnull Hconv. apply truthy_string_nonempty in Hk.
  assert (Hmem : exists detail, member body "detail" = inr detail).
  { destruct body; try (eexists; reflexivity). congruence. }
  destruct Hmem as [detail Hmem].
  assert (Htext : exists text, ToString (detail_or_status detail res) = Some text).
  { destruct detail as [d|]; cbn [detail_or_status]; [|eexists; reflexivity].
    destruct (truthy (Some d)) eqn:Htruthy; [|eexists; reflexivity].
    specialize (Hconv d Hmem Htruthy).
    destruct (ToString d) as [text|]; [now exists text|congruence]. }
  destruct Htext as [text Htext].
  unfold get. rewrite Hk. cbn [negb].
  unfold try_catch, bind, fetch, json_of. rewrite Hnet, Hbody, Hok, Hmem.
  cbn [negb lift ret]. rewrite throw_ShhedSDKError_run.
  unfold new_ShhedSDKError. rewrite Htext.
  eexists; split; reflexivity.
Qed.

(** The failure a body that does not parse gives, whatever the status. *)
Lemma get_unparsable_outcome (t : Transport) (res : Response) (class msg : string) :
  keyName <> "" ->
  t (get_request (shhed this) keyName) = inr res ->
  res_json res = inl (ThrownError class msg) ->
  exists err,
    outcome (get (shhed this) keyName t) = Rejected (ThrownSDKError err)
    /\ statusCode err = 0%N.
Proof.
  intros Hk Hnet Hbody. apply truthy_string_nonempty in Hk.
  unfold get. rewrite Hk. cbn [negb].
  unfold try_catch, bind, fetch, json_of. rewrite Hnet, Hbody.
  eexists; split; reflexivity.
Qed.

(** The helper settles as the first attempt that ends the loop, for a
    whole number of attempts up to 1014, the range on which
    [Math.pow(2, attempt) * 1000] is the integer [delay] gives: when the
    attempts before [k] fail with errors it retries, and attempt [k]
    resolves or fails with a 404, 401 or 403, the outcome is that of
    attempt [k]; the waits are those after attempts 1 to [k - 1], of
    [2^attempt * 1000] ms each; and with a name, [k] requests were sent,
    all the same. *)
Theorem getKeyWithRetry_settles_at (k : N) :
  (maxRetries <= 1014)%N ->
  (1 <= k <= maxRetries)%N ->
  (forall i, (1 <= i < k)%N -> fails_over this keyName (net i)) ->
  ends_loop this keyName (net k) ->
  snd (getKeyWithRetry this keyName (Some maxRetries) net)
  = outcome (get (shhed this) keyName (net k))
  /\ timeouts (fst (getKeyWithRetry this keyName (Some maxRetries) net))
     = delay <$> attempts_from 1 (N.to_nat (k - 1))
  /\ (keyName <> "" ->
      client_requests (fst (getKeyWithRetry this keyName (Some maxRetries) net))
      = replicate (N.to_nat k) (get_request (shhed this) keyName)).
Proof.
  intros _ Hk Hbefore Hend. unfold getKeyWithRetry.
  rewrite (attempts_from_split maxRetries k Hk).
  destruct (retry_loop_upto (attempts_from 1 (N.to_nat (k - 1)))
              (attempts_from (N.succ k) (N.to_nat (maxRetries - k))) k None)
    as (Hout & Hwait & Hreq).
  { intros i Hi. apply elem_of_attempts_from in Hi. split; [apply Hbefore|]; lia. }
  { now left. }
  split; [exact Hout|]. split; [exact Hwait|].
  intros Hname. rewrite Hreq, (requests_of_attempts _ Hname).
  rewrite length_app, length_attempts_from. cbn [length]. f_equal. lia.
Qed.

(** When every attempt fails with an error the helper retries, for a
    whole number of attempts from 1 to 1014, it is rejected with the
    error of the last attempt, after waiting between the attempts but not
    after the last one; and when the name is not empty and holds no
    unpaired surrogate (it has UTF-8 octets), one request was sent per
    attempt. *)
Theorem getKeyWithRetry_exhausted :
  (1 <= maxRetries <= 1014)%N ->
  (forall i, (1 <= i <= maxRetries)%N -> fails_over this keyName (net i)) ->
  snd (getKeyWithRetry this keyName (Some maxRetries) net)
  = outcome (get (shhed this) keyName (net maxRetries))
  /\ (exists error,
        snd (getKeyWithRetry this keyName (Some maxRetries) net) = Rejected error)
  /\ timeouts (fst (getKeyWithRetry this keyName (Some maxRetries) net))
     = delay <$> attempts_from 1 (N.to_nat (maxRetries - 1))
  /\ (keyName <> "" ->
      (exists units, utf8 units = Some keyName) ->
      client_requests (fst (getKeyWithRetry this keyName (Some maxRetries) net))
      = replicate (N.to_nat maxRetries) (get_request (shhed this) keyName)).
Proof.
  intros [Hmax _] Hall. unfold getKeyWithRetry.
  rewrite (attempts_from_split maxRetries maxRetries) by lia.
  replace (N.to_nat (maxRetries - maxRetries)) with 0 by lia.
  destruct (retry_loop_upto (attempts_from 1 (N.to_nat (maxRetries - 1)))
              [] maxRetries None)
    as (Hout & Hwait & Hreq).
  { intros i Hi. apply elem_of_attempts_from in Hi. split; [apply Hall|]; lia. }
  { right. split; [reflexivity|lia]. }
  cbn [attempts_from].
  split; [exact Hout|]. split.
  { rewrite Hout. destruct (Hall maxRetries) as (error & Herr & _); [lia|].
    now exists error. }
  split; [exact Hwait|].
  intros Hname _. rewrite Hreq, (requests_of_attempts _ Hname).
  rewrite length_app, length_attempts_from. cbn [length]. f_equal. lia.
Qed.

End Retry.

Section RetryEdges.

Variable this : ConfigService.
Variable net : Network.

(** The helper never sends more requests than it is allowed attempts:
    at most [maxRetries], and at most 3 when [maxRetries] is left out. *)
Theorem getKeyWithRetry_request_bound (keyName : string) (limit : option N) :
  length (client_requests (fst (getKeyWithRetry this keyName limit net)))
  <= N.to_nat (match limit with Some n => n | None => 3%N end).
Proof.
  unfold getKeyWithRetry.
  etransitivity; [apply retry_loop_requests|].
  rewrite length_attempts_from. reflexivity.
Qed.

(** With [maxRetries] 0 the helper makes no attempt, and what it throws
    is [lastError] still unassigned: the value [undefined], no [Error]. *)
Theorem getKeyWithRetry_without_attempts (keyName : string) :
  getKeyWithRetry this keyName (Some 0%N) net = ([], Rejected ThrownValue)
  /\ instanceof_Error ThrownValue = false.
Proof. split; reflexivity. Qed.

(** The empty name is retried like a network failure, for a whole
    number of attempts from 1 to 1014: the usage error of [get] is
    caught, the helper waits after every attempt but the last, sends
    nothing, and is rejected with that plain [Error]. *)
Theorem getKeyWithRetry_empty_name (maxRetries : N) :
  (1 <= maxRetries <= 1014)%N ->
  snd (getKeyWithRetry this "" (Some maxRetries) net)
  = Rejected (ThrownError "Error" "Key name is required")
  /\ client_requests (fst (getKeyWithRetry this "" (Some maxRetries) net)) = []
  /\ timeouts (fst (getKeyWithRetry this "" (Some maxRetries) net))
     = delay <$> attempts_from 1 (N.to_nat (maxRetries - 1)).
Proof.
  intros [Hmax _]. unfold getKeyWithRetry.
  rewrite (attempts_from_split maxRetries maxRetries) by lia.
  replace (N.to_nat (maxRetries - maxRetries)) with 0 by lia.
  destruct (retry_loop_upto this "" maxRetries net
              (attempts_from 1 (N.to_nat (maxRetries - 1))) [] maxRetries None)
    as (Hout & Hwait & Hreq).
  { intros i Hi. apply elem_of_attempts_from in Hi. split; [|lia].
    eexists. split; reflexivity. }
  { right. split; [reflexivity|lia]. }
  cbn [attempts_from].
  split; [exact Hout|]. split; [|exact Hwait].
  rewrite Hreq. now apply requests_of_attempts_empty_name.
Qed.

(** A 404, 401 or 403 answer to the first attempt, with a body whose
    [detail] converts to a string, is final: one request, no wait, and
    the failure carries that status. *)
Theorem getKeyWithRetry_gives_up_on_status
    (keyName : string) (maxRetries : N) (res : Response) (body : json) :
  keyName <> "" ->
  (1 <= maxRetries)%N ->
  net 1%N (get_request (shhed this) keyName) = inr res ->
  status res = 404%N \/ status res = 401%N \/ status res = 403%N ->
  res_json res = inr body ->
  body <> JNull ->
  detail_converts body ->
  (exists err,
      snd (getKeyWithRetry this keyName (Some maxRetries) net)
      = Rejected (ThrownSDKError err)
      /\ statusCode err = status res)
  /\ client_requests (fst (getKeyWithRetry this keyName (Some maxRetries) net))
     = [get_request (shhed this) keyName]
  /\ timeouts (fst (getKeyWithRetry this keyName (Some maxRetries) net)) = [].
Proof.
  intros Hname Hmax Hnet Hst Hbody Hnull Hconv.
  assert (Hok : ok res = false)
    by (unfold ok; destruct Hst as [-> | [-> | ->]]; reflexivity).
  destruct (get_failure_outcome this keyName (net 1%N) res body
              Hname Hnet Hok Hbody Hnull Hconv) as (err & Herr & Hcode).
  unfold getKeyWithRetry.
  rewrite (attempts_from_split maxRetries 1) by lia.
  destruct (retry_loop_upto this keyName maxRetries net
              [] (attempts_from 2 (N.to_nat (maxRetries - 1))) 1%N None)
    as (Hout & Hwait & Hreq).
  { intros i Hi. inversion Hi. }
  { left. unfold ends_loop. rewrite Herr. cbn [gives_up]. rewrite Hcode.
    destruct Hst as [-> | [-> | ->]]; reflexivity. }
  change (attempts_from 1 (N.to_nat (1 - 1))) with (@nil N).
  change (N.succ 1) with 2%N.
  cbn [app] in *.
  split; [exists err; split; [now rewrite Hout|exact Hcode]|].
  split; [|exact Hwait].
  rewrite Hreq. apply (requests_of_attempts this keyName net [1%N] Hname).
Qed.

(** The status of a response is lost when its body does not parse, and
    with it the reason to give up: answers that do not parse are retried
    to the last attempt, a 404 among them like any other, and the failure
    has status code 0. *)
Theorem getKeyWithRetry_retries_unparsable (keyName : string) (maxRetries : N) :
  keyName <> "" ->
  (1 <= maxRetries)%N ->
  (forall i, (1 <= i <= maxRetries)%N ->
     exists res class msg,
       net i (get_request (shhed this) keyName) = inr res
       /\ res_json res = inl (ThrownError class msg)) ->
  (exists err,
      snd (getKeyWithRetry this keyName (Some maxRetries) net)
      = Rejected (ThrownSDKError err)
      /\ statusCode err = 0%N)
  /\ client_requests (fst (getKeyWithRetry this keyName (Some maxRetries) net))
     = replicate (N.to_nat maxRetries) (get_request (shhed this) keyName).
Proof.
  intros Hname Hmax Hall.
  assert (Hfail : forall i, (1 <= i <= maxRetries)%N ->
            exists err, outcome (get (shhed this) keyName (net i))
                        = Rejected (ThrownSDKError err)
                        /\ statusCode err = 0%N).
  { intros i Hi. destruct (Hall i Hi) as (res & class & msg & Hnet & Hbody).
    exact (get_unparsable_outcome this keyName (net i) res class msg Hname Hnet Hbody). }
  unfold getKeyWithRetry.
  rewrite (attempts_from_split maxRetries maxRetries) by lia.
  replace (N.to_nat (maxRetries - maxRetries)) with 0 by lia.
  destruct (retry_loop_upto this keyName maxRetries net
              (attempts_from 1 (N.to_nat (maxRetries - 1))) [] maxRetries None)
    as (Hout & Hwait & Hreq).
  { intros i Hi. apply elem_of_attempts_from in Hi. split; [|lia].
    destruct (Hfail i) as (err & Herr & Hcode); [lia|].
    exists (ThrownSDKError err). split; [exact Herr|].
    cbn [gives_up]. rewrite Hcode. reflexivity. }
  { right. split; [reflexivity|lia]. }
  cbn [attempts_from].
  destruct (Hfail maxRetries) as (err & Herr & Hcode); [lia|].
  split; [exists err; split; [now rewrite Hout|exact Hcode]|].
  rewrite Hreq, (requests_of_attempts this keyName net _ Hname).
  rewrite length_app, length_attempts_from. cbn [length]. f_equal. lia.
Qed.

End RetryEdges.

(** * The request line *)

Section StringFacts.

Lemma append_inj_l (a b c : string) : a +:+ b = a +:+ c -> b = c.
Proof.
  induction a as [|x a IH]; cbn; intros H; [exact H|].
  injection H as H. now apply IH.
Qed.

Lemma prefix_append (p s t : string) :
  String.prefix p s = true -> String.prefix p (s +:+ t) = true.
Proof.
  revert s. induction p as [|x p IH]; intros s H;
    [destruct (s +:+ t); reflexivity|].
  destruct s as [|y s]; [discriminate H|].
  change (String y s +:+ t) with (String y (s +:+ t)).
  cbn [String.prefix] in *.
  destruct (ascii_dec x y); [now apply IH | discriminate H].
Qed.

Lemma mem_ascii_append (c : ascii) (a b : string) :
  mem_ascii c (a +:+ b) = mem_ascii c a || mem_ascii c b.
Proof.
  induction a as [|x a IH]; [reflexivity|].
  change (String x a +:+ b) with (String x (a +:+ b)).
  cbn [mem_ascii]. rewrite IH. now rewrite orb_assoc.
Qed.

Lemma length_append (a b : string) :
  String.length (a +:+ b) = String.length a + String.length b.
Proof.
  induction a as [|x a IH]; [reflexivity|].
  change (String x a +:+ b) with (String x (a +:+ b)).
  cbn [String.length]. now rewrite IH.
Qed.

(** What one octet becomes: itself, or a percent sign and two
    hexadecimal digits, which are unreserved. *)
Lemma encoded_octet (c : ascii) :
  (uriUnreserved c = true
   /\ (if uriUnreserved c then String c EmptyString else percent_octet c)
      = String c EmptyString)
  \/ (uriUnreserved c = false
      /\ exists h l,
           (if uriUnreserved c then String c EmptyString else percent_octet c)
           = String "%" (String h (String l EmptyString))
           /\ uriUnreserved h = true /\ uriUnreserved l = true).
Proof.
  destruct c as [[] [] [] [] [] [] [] []];
    first [ left; split; reflexivity
          | right; split; [reflexivity|]; do 2 eexists; repeat split ].
Qed.

Lemma encodeURIComponent_length (s : string) :
  String.length s <= String.length (encodeURIComponent s) <= 3 * String.length s.
Proof.
  induction s as [|c s IH]; [cbn; lia|].
  cbn [encodeURIComponent]. rewrite length_append.
  destruct (encoded_octet c) as [[_ ->]|[_ (h & l & -> & _)]]; cbn [String.length]; lia.
Qed.

End StringFacts.

Section RequestLine.

Variable URL_parses : string -> bool.

(** [s.replace(/\/$/, '')] takes one slash off the end of a string that
    ends in a slash, and leaves every other string alone; of two
    trailing slashes one remains. *)
Theorem strip_trailing_slash_once (s : string) :
  (exists t, s = t +:+ "/" /\ strip_trailing_slash s = t)
  \/ ((forall t, s <> t +:+ "/") /\ strip_trailing_slash s = s).
Proof.
  induction s as [|c s IH].
  { right. split; [|reflexivity]. intros [|x t]; discriminate. }
  destruct s as [|d s].
  { destruct (Ascii.eqb_spec c "/") as [->|Hc].
    - left. exists "". split; reflexivity.
    - right. split.
      + intros [|x [|y t]] H; cbn in H; try discriminate H.
        injection H as H. contradiction.
      + cbn. destruct (Ascii.eqb_spec c "/"); [contradiction|reflexivity]. }
  destruct IH as [(t & Ht & Hstrip)|[Hno Hstrip]].
  - left. exists (String c t). split.
    + change (String c t +:+ "/") with (String c (t +:+ "/")). now rewrite <- Ht.
    + change (strip_trailing_slash (String c (String d s)))
        with (String c (strip_trailing_slash (String d s))).
      now rewrite Hstrip.
  - right. split.
    + intros [|x t] H; [discriminate H|].
      change (String x t +:+ "/") with (String x (t +:+ "/")) in H.
      injection H as _ H. exact (Hno t H).
    + change (strip_trailing_slash (String c (String d s)))
        with (String c (strip_trailing_slash (String d s))).
      now rewrite Hstrip.
Qed.

Lemma constructor_checked (cfg : ShhedConfig) (this : Shhed) :
  constructor URL_parses cfg = inr this ->
  config this = cfg
  /\ startsWith (access_key cfg) "ak_" = true
  /\ projectId cfg <> ""
  /\ endpoint this <> ""
  /\ (endpoint this = "https://api.shhed.io"
      \/ (Types.endpoint cfg = Some (endpoint this)
          /\ URL_parses (endpoint this) = true)).
Proof.
  unfold constructor, validateConfig.
  destruct (truthy_string (access_key cfg)); [|discriminate].
  destruct (truthy_string (projectId cfg)) eqn:Hpid; [|discriminate].
  destruct (startsWith (access_key cfg) "ak_"); [|discriminate].
  apply truthy_string_nonempty in Hpid. cbn [negb].
  destruct (Types.endpoint cfg) as [e|]; cbn [or_default].
  - destruct (truthy_string e) eqn:He.
    + destruct (URL_parses e) eqn:Hurl; [|discriminate].
      apply truthy_string_nonempty in He.
      intros H. injection H as <-. cbn. repeat split; auto.
    + intros H. injection H as <-. cbn. repeat split; auto; discriminate.
  - intros H. injection H as <-. cbn. repeat split; auto; discriminate.
Qed.

(** What construction guarantees.  A client that was constructed holds
    the configuration it was given, unchanged; its access key starts with
    [ak_]; its project identifier is not empty; and its endpoint is not
    empty: it is the default origin, or the configured endpoint, which
    the URL constructor accepted. *)
Theorem constructed_client_is_valid (cfg : ShhedConfig) (this : Shhed) :
  constructor URL_parses cfg = inr this ->
  config this = cfg
  /\ startsWith (access_key cfg) "ak_" = true
  /\ projectId cfg <> ""
  /\ endpoint this <> ""
  /\ (endpoint this = "https://api.shhed.io"
      \/ (Types.endpoint cfg = Some (endpoint this)
          /\ URL_parses (endpoint this) = true)).
Proof. apply constructor_checked. Qed.

(** Every request for a secret that a constructed client sends is
    authorized with a bearer token that starts with [ak_], and names a
    project. *)
Theorem get_request_is_credentialed
    (cfg : ShhedConfig) (this : Shhed) (keyName : string) (net : Transport) (req : Request) :
  constructor URL_parses cfg = inr this ->
  req ∈ requests (effects (get this keyName net)) ->
  exists token project,
    req_headers req !! "Authorization" = Some ("Bearer " +:+ token)
    /\ startsWith token "ak_" = true
    /\ req_headers req !! "X-Project-ID" = Some project
    /\ project <> "".
Proof.
  intros Hnew Hreq.
  destruct (constructor_checked cfg this Hnew) as (Hcfg & Hpre & Hpid & _).
  destruct (decide (keyName = "")) as [->|Hk].
  { rewrite get_requests_empty_name in Hreq. inversion Hreq. }
  rewrite (get_requests this net keyName Hk) in Hreq.
  apply list_elem_of_singleton in Hreq. subst req.
  destruct (get_headers_lookup this) as (Ha & Hp & _).
  exists (authToken this), (projectId (config this)).
  cbn [get_request req_headers].
  split; [exact Ha|]. split; [|split; [exact Hp|now rewrite Hcfg]].
  unfold authToken. rewrite Hcfg. unfold startsWith in *.
  destruct (secret_key cfg) as [sk|]; [|exact Hpre].
  destruct (truthy_string sk); [|exact Hpre].
  now apply prefix_append.
Qed.

(** A trailing slash on the configured endpoint is harmless: with the
    endpoint [base/], secrets are requested at [base/v1/keys/<name>] and
    health at [base/health]. *)
Theorem trailing_slash_is_dropped
    (cfg : ShhedConfig) (this : Shhed) (base keyName : string) :
  constructor URL_parses cfg = inr this ->
  Types.endpoint cfg = Some (base +:+ "/") ->
  req_url (get_request this keyName)
  = base +:+ "/v1/keys/" +:+ encodeURIComponent keyName
  /\ req_url (test_request this) = base +:+ "/health".
Proof.
  intros Hnew Hend. apply constructor_inr in Hnew. subst this.
  cbn [get_request test_request req_url]. unfold get_url, test_url. cbn [endpoint].
  rewrite Hend, or_default_supplied by (destruct base; discriminate).
  rewrite strip_trailing_slash_snoc. now split.
Qed.

End RequestLine.

Section PathSegment.

(** Two names never share a URL: the path encoding loses nothing. *)
Theorem get_url_injective (this : Shhed) (a b : string) :
  req_url (get_request this a) = req_url (get_request this b) -> a = b.
Proof.
  cbn [get_request req_url]. unfold get_url. intros H.
  apply append_inj_l in H. apply (append_inj_l "/v1/keys/") in H.
  now apply encodeURIComponent_inj.
Qed.

(** The encoded name is one path segment: every character of it is
    unreserved or a percent sign, so no name can add a slash, a query, a
    fragment or a space to the request URL. *)
Theorem encoded_name_is_one_segment (keyName : string) :
  (forall c, mem_ascii c (encodeURIComponent keyName) = true ->
             uriUnreserved c = true \/ c = "%"%char)
  /\ mem_ascii "/" (encodeURIComponent keyName) = false
  /\ mem_ascii "?" (encodeURIComponent keyName) = false
  /\ mem_ascii "#" (encodeURIComponent keyName) = false
  /\ mem_ascii " " (encodeURIComponent keyName) = false.
Proof.
  assert (Hsafe : forall c, mem_ascii c (encodeURIComponent keyName) = true ->
                            uriUnreserved c = true \/ c = "%"%char).
  { induction keyName as [|x s IH]; intros c Hc; [discriminate Hc|].
    cbn [encodeURIComponent] in Hc. rewrite mem_ascii_append in Hc.
    apply orb_true_iff in Hc as [Hc|Hc]; [|now apply IH].
    destruct (encoded_octet x) as [[Hx Heq]|[_ (h & l & Heq & Hh & Hl)]];
      rewrite Heq in Hc; cbn in Hc.
    - rewrite orb_false_r in Hc. apply Ascii.eqb_eq in Hc. subst c. now left.
    - rewrite orb_false_r in Hc.
      apply orb_true_iff in Hc as [Hc|Hc]; [apply Ascii.eqb_eq in Hc; now right|].
      apply orb_true_iff in Hc as [Hc|Hc]; apply Ascii.eqb_eq in Hc; subst c; now left. }
  split; [exact Hsafe|].
  repeat split;
    match goal with
    | |- mem_ascii ?c _ = false =>
        destruct (mem_ascii c (encodeURIComponent keyName)) eqn:H; [|reflexivity];
        apply Hsafe in H as [H|H]; discriminate H
    end.
Qed.

(** A name goes into the URL unchanged exactly when all its characters
    are unreserved: names such as [STRIPE_API_KEY] are sent as they are. *)
Theorem plain_names_are_sent_unchanged (keyName : string) :
  encodeURIComponent keyName = keyName
  <-> (forall c, mem_ascii c keyName = true -> uriUnreserved c = true).
Proof.
  induction keyName as [|x s IH].
  { split; [intros _ c Hc; discriminate Hc|reflexivity]. }
  cbn [encodeURIComponent].
  destruct (encoded_octet x) as [[Hx ->]|[Hx (h & l & -> & _)]].
  - cbn [String.append]. split.
    + intros H c Hc. injection H as H. cbn in Hc.
      apply orb_true_iff in Hc as [Hc|Hc].
      * apply Ascii.eqb_eq in Hc. now subst c.
      * now apply IH.
    + intros H. f_equal. apply IH. intros c Hc. apply H. cbn. rewrite Hc.
      apply orb_true_r.
  - split.
    + intros H. apply (f_equal String.length) in H.
      rewrite length_append in H. cbn [String.length] in H.
      pose proof (encodeURIComponent_length s). lia.
    + intros H. specialize (H x). cbn in H. rewrite Ascii.eqb_refl in H.
      specialize (H eq_refl). congruence.
Qed.

End PathSegment.

(** * The further properties at sample inputs *)

Section FurtherRuns.
Import Samples RetrySamples.

Lemma always_raises_no_ShhedSDKError (res : Response) :
  (forall e, res_json res = inl e -> instanceof_ShhedSDKError e = false) ->
  raises_no_ShhedSDKError (always (inr res)).
Proof.
  intros Hres. split.
  - intros req e H. discriminate H.
  - intros req res' e H. injection H as <-. apply Hres.
Qed.

Lemma get_rejects_with_ShhedSDKError_only_witness :
  "TEST_KEY" <> ""
  /\ ((exists v, outcome (get kv "TEST_KEY" (always (inr notJSON))) = Resolved v)
      \/ (exists err,
            outcome (get kv "TEST_KEY" (always (inr notJSON)))
            = Rejected (ThrownSDKError err))).
Proof.
  split; [discriminate|].
  apply (get_rejects_with_ShhedSDKError_only kv (always (inr notJSON)) "TEST_KEY").
  discriminate.
Defined.

Lemma get_status_code_is_http_status_witness :
  raises_no_ShhedSDKError (always (inr keyMissing))
  /\ exists res body,
       always (inr keyMissing) (get_request kv "MISSING_KEY") = inr res
       /\ res_json res = inr body
       /\ ~ (200 <= status res <= 299)%N
       /\ 404%N = status res
       /\ Some (JObject {[ "detail" := JString "API key not found" ]}) = Some body.
Proof.
  assert (Hnet : raises_no_ShhedSDKError (always (inr keyMissing))).
  { apply always_raises_no_ShhedSDKError. intros e H. discriminate H. }
  split; [exact Hnet|].
  apply (get_status_code_is_http_status kv (always (inr keyMissing)) "MISSING_KEY"
           {| name := "ShhedSDKError";
              message := "API key not found";
              statusCode := 404;
              response := Some (JObject {[ "detail" := JString "API key not found" ]}) |});
    [exact Hnet | reflexivity | discriminate].
Defined.

Lemma test_status_code_is_http_status_witness :
  raises_no_ShhedSDKError (always (inr unhealthy))
  /\ exists res,
       always (inr unhealthy) (test_request kv) = inr res
       /\ ~ (200 <= status res <= 299)%N
       /\ 500%N = status res.
Proof.
  assert (Hnet : raises_no_ShhedSDKError (always (inr unhealthy))).
  { apply always_raises_no_ShhedSDKError. intros e H.
    injection H as <-. reflexivity. }
  split; [exact Hnet|].
  apply (test_status_code_is_http_status kv (always (inr unhealthy))
           {| name := "ShhedSDKError";
              message := "Health check failed: HTTP 500";
              statusCode := 500;
              response := None |});
    [exact Hnet | reflexivity | discriminate].
Defined.

Lemma test_unknown_error_witness :
  always (inl ThrownValue) (test_request kv) = inl ThrownValue
  /\ outcome (test kv (always (inl ThrownValue)))
     = Rejected (ThrownSDKError
         {| name := "ShhedSDKError";
            message := "Connection test failed: Unknown error";
            statusCode := 0;
            response := None |}).
Proof.
  split; [reflexivity|].
  rewrite (test_unknown_error kv (always (inl ThrownValue)) eq_refl). reflexivity.
Defined.

Lemma test_ignores_credentials_witness :
  endpoint (client_of publicConfig) = endpoint kv
  /\ test (client_of publicConfig) (always (inr healthy)) = test kv (always (inr healthy)).
Proof.
  split; [reflexivity|].
  apply (test_ignores_credentials kv (always (inr healthy)) (client_of publicConfig)).
  reflexivity.
Defined.

Lemma get_object_detail_witness :
  "TEST_KEY" <> ""
  /\ ~ (200 <= status unprocessable <= 299)%N
  /\ outcome (get kv "TEST_KEY" (always (inr unprocessable)))
     = Rejected (ThrownSDKError
         {| name := "ShhedSDKError";
            message := "[object Object]";
            statusCode := 422;
            response := Some (JObject {[ "detail" := JObject {[ "msg" := JString "field required" ]} ]}) |})
  /\ outcome (get kv "TEST_KEY" (always (inr shadowed)))
     = Rejected (ThrownSDKError
         {| name := "ShhedSDKError";
            message := "Failed to fetch key " +:+ dquote +:+ "TEST_KEY" +:+ dquote
                       +:+ ": Cannot convert object to primitive value";
            statusCode := 0;
            response := None |}).
Proof.
  assert (Hst : ~ (200 <= 422 <= 299)%N).
  { intros [_ H]. apply H. reflexivity. }
  split; [discriminate|]. split; [exact Hst|]. split.
  - apply (proj1 (get_object_detail kv (always (inr unprocessable)) "TEST_KEY" unprocessable
                    {[ "detail" := JObject {[ "msg" := JString "field required" ]} ]}
                    {[ "msg" := JString "field required" ]}
                    ltac:(discriminate) eq_refl Hst eq_refl eq_refl)).
    reflexivity.
  - apply (proj2 (get_object_detail kv (always (inr shadowed)) "TEST_KEY" shadowed
                    {[ "detail" := JObject {[ "toString" := JString "x" ]} ]}
                    {[ "toString" := JString "x" ]}
                    ltac:(discriminate) eq_refl Hst eq_refl eq_refl)).
    exists (JString "x"). reflexivity.
Defined.

Lemma get_resolves_to_key_value_witness :
  "TEST_KEY" <> ""
  /\ (200 <= status keyFound <= 299)%N
  /\ outcome (get kv "TEST_KEY" (always (inr keyFound)))
     = Resolved (Some (JString "secret-value"))
  /\ outcome (get kv "TEST_KEY" (always (inr emptyAnswer))) = Resolved None.
Proof.
  assert (Hst : (200 <= 200 <= 299)%N) by (split; discriminate).
  split; [discriminate|]. split; [exact Hst|]. split.
  - rewrite (get_resolves_to_key_value kv (always (inr keyFound)) "TEST_KEY" keyFound
               (JObject {[ "key_name" := JString "TEST_KEY";
                           "key_value" := JString "secret-value";
                           "project_id" := JString "test-project" ]}));
      [reflexivity | discriminate | reflexivity | exact Hst | reflexivity | discriminate].
  - rewrite (get_resolves_to_key_value kv (always (inr emptyAnswer)) "TEST_KEY" emptyAnswer
               (JObject ∅));
      [reflexivity | discriminate | reflexivity | exact Hst | reflexivity | discriminate].
Defined.

Lemma get_null_body_witness :
  "TEST_KEY" <> ""
  /\ res_json nullAnswer = inr JNull
  /\ status nullAnswer = 500%N
  /\ exists err,
       outcome (get kv "TEST_KEY" (always (inr nullAnswer))) = Rejected (ThrownSDKError err)
       /\ statusCode err = 0%N.
Proof.
  split; [discriminate|]. split; [reflexivity|]. split; [reflexivity|].
  apply (get_null_body kv (always (inr nullAnswer)) "TEST_KEY" nullAnswer);
    [discriminate | reflexivity | reflexivity].
Defined.

Lemma get_transport_failure_status_witness :
  "TEST_KEY" <> ""
  /\ instanceof_ShhedSDKError ThrownValue = false
  /\ exists err,
       get kv "TEST_KEY" (always (inl ThrownValue))
       = ([Fetched (get_request kv "TEST_KEY")], Rejected (ThrownSDKError err))
       /\ statusCode err = 0%N
       /\ (instanceof_Error ThrownValue = false ->
           message err = "Failed to fetch key " +:+ dquote +:+ "TEST_KEY" +:+ dquote
                         +:+ ": Unknown error").
Proof.
  split; [discriminate|]. split; [reflexivity|].
  apply (get_transport_failure_status kv (always (inl ThrownValue)) "TEST_KEY" ThrownValue);
    [discriminate | reflexivity | reflexivity].
Defined.

Lemma constructed_client_is_valid_witness :
  constructor URL_has_scheme localConfig = inr (client_of localConfig)
  /\ config (client_of localConfig) = localConfig
  /\ startsWith (access_key localConfig) "ak_" = true
  /\ projectId localConfig <> ""
  /\ endpoint (client_of localConfig) <> ""
  /\ (endpoint (client_of localConfig) = "https://api.shhed.io"
      \/ (Types.endpoint localConfig = Some (endpoint (client_of localConfig))
          /\ URL_has_scheme (endpoint (client_of localConfig)) = true)).
Proof.
  split; [reflexivity|].
  apply (constructed_client_is_valid URL_has_scheme localConfig (client_of localConfig)).
  reflexivity.
Defined.

Lemma get_request_is_credentialed_witness :
  constructor URL_has_scheme validConfig = inr kv
  /\ get_request kv "TEST_KEY" ∈ requests (effects (get kv "TEST_KEY" (always (inr keyFound))))
  /\ exists token project,
       req_headers (get_request kv "TEST_KEY") !! "Authorization" = Some ("Bearer " +:+ token)
       /\ startsWith token "ak_" = true
       /\ req_headers (get_request kv "TEST_KEY") !! "X-Project-ID" = Some project
       /\ project <> "".
Proof.
  assert (Hin : get_request kv "TEST_KEY"
                ∈ requests (effects (get kv "TEST_KEY" (always (inr keyFound)))))
    by (apply list_elem_of_singleton; reflexivity).
  split; [reflexivity|]. split; [exact Hin|].
  apply (get_request_is_credentialed URL_has_scheme validConfig kv "TEST_KEY"
           (always (inr keyFound)) (get_request kv "TEST_KEY") eq_refl Hin).
Defined.

Lemma trailing_slash_is_dropped_witness :
  constructor URL_has_scheme localConfig = inr (client_of localConfig)
  /\ Types.endpoint localConfig = Some ("http://localhost:8000" +:+ "/")
  /\ req_url (get_request (client_of localConfig) "TEST_KEY")
     = "http://localhost:8000/v1/keys/TEST_KEY"
  /\ req_url (test_request (client_of localConfig)) = "http://localhost:8000/health".
Proof.
  split; [reflexivity|]. split; [reflexivity|].
  apply (trailing_slash_is_dropped URL_has_scheme localConfig (client_of localConfig)
           "http://localhost:8000" "TEST_KEY");
    reflexivity.
Defined.

Lemma get_url_injective_witness :
  req_url (get_request kv "A B") = req_url (get_request kv ("A" +:+ " B"))
  /\ "A B" = "A" +:+ " B".
Proof.
  split; [reflexivity|].
  apply (get_url_injective kv "A B" ("A" +:+ " B")). reflexivity.
Defined.

Lemma encoded_name_is_one_segment_witness :
  mem_ascii "2" (encodeURIComponent "a/b") = true
  /\ (uriUnreserved "2" = true \/ "2"%char = "%"%char)
  /\ mem_ascii "/" (encodeURIComponent "a/b") = false.
Proof.
  split; [reflexivity|]. split.
  - apply (proj1 (encoded_name_is_one_segment "a/b") "2"%char). reflexivity.
  - apply (proj1 (proj2 (encoded_name_is_one_segment "a/b"))).
Defined.

Lemma plain_names_are_sent_unchanged_witness :
  encodeURIComponent "STRIPE_API_KEY" = "STRIPE_API_KEY"
  /\ uriUnreserved "_" = true.
Proof.
  split; [reflexivity|].
  apply (proj1 (plain_names_are_sent_unchanged "STRIPE_API_KEY") eq_refl "_"%char).
  reflexivity.
Defined.

(** A name that is an unpaired surrogate: nothing is sent, and the
    error is the URIError, no [ShhedSDKError]. *)
Lemma lone_surrogate_name_example :
  utf8 loneSurrogate = None
  /\ get_units kv loneSurrogate (always (inr keyFound))
     = ([], Rejected (ThrownError "URIError" "URI malformed")).
Proof. split; reflexivity. Qed.

(** *** The retry helper *)

Lemma flaky_fails_over (i : N) :
  (1 <= i < 3)%N -> fails_over service "TEST_KEY" (flaky i).
Proof.
  intros Hi. assert (Hcases : i = 1%N \/ i = 2%N) by lia.
  destruct Hcases as [-> | ->]; eexists; split; reflexivity.
Qed.

Lemma down_fails_over (i : N) : fails_over service "TEST_KEY" (down i).
Proof. eexists; split; reflexivity. Qed.

Lemma getKeyWithRetry_settles_at_witness :
  (5 <= 1014)%N
  /\ (1 <= 3 <= 5)%N
  /\ ends_loop service "TEST_KEY" (flaky 3%N)
  /\ snd (getKeyWithRetry service "TEST_KEY" (Some 5%N) flaky)
     = Resolved (Some (JString "secret-value"))
  /\ timeouts (fst (getKeyWithRetry service "TEST_KEY" (Some 5%N) flaky))
     = [2000%N; 4000%N]
  /\ length (client_requests (fst (getKeyWithRetry service "TEST_KEY" (Some 5%N) flaky))) = 3.
Proof.
  assert (Hk : (1 <= 3 <= 5)%N) by lia.
  assert (Hend : ends_loop service "TEST_KEY" (flaky 3%N)) by exact I.
  destruct (getKeyWithRetry_settles_at service "TEST_KEY" 5%N flaky 3%N
              ltac:(lia) Hk
              (fun i Hi => flaky_fails_over i Hi) Hend)
    as (Hout & Hwait & Hreq).
  split; [lia|]. split; [exact Hk|]. split; [exact Hend|].
  split; [rewrite Hout; reflexivity|].
  split; [rewrite Hwait; reflexivity|].
  rewrite Hreq by discriminate. reflexivity.
Defined.

Lemma getKeyWithRetry_exhausted_witness :
  (1 <= 3 <= 1014)%N
  /\ "TEST_KEY" <> ""
  /\ utf8 (code_units "TEST_KEY") = Some "TEST_KEY"
  /\ snd (getKeyWithRetry service "TEST_KEY" (Some 3%N) down)
     = Rejected (ThrownSDKError
         {| name := "ShhedSDKError";
            message := "Failed to fetch key " +:+ dquote +:+ "TEST_KEY" +:+ dquote
                       +:+ ": Network error";
            statusCode := 0;
            response := None |})
  /\ timeouts (fst (getKeyWithRetry service "TEST_KEY" (Some 3%N) down))
     = [2000%N; 4000%N]
  /\ client_requests (fst (getKeyWithRetry service "TEST_KEY" (Some 3%N) down))
     = replicate 3 (get_request (shhed service) "TEST_KEY").
Proof.
  assert (Hmax : (1 <= 3 <= 1014)%N) by lia.
  destruct (getKeyWithRetry_exhausted service "TEST_KEY" 3%N down Hmax
              (fun i _ => down_fails_over i))
    as (Hout & _ & Hwait & Hreq).
  split; [exact Hmax|]. split; [discriminate|]. split; [reflexivity|].
  split; [rewrite Hout; reflexivity|].
  split; [rewrite Hwait; reflexivity|].
  apply Hreq; [discriminate|]. exists (code_units "TEST_KEY"). reflexivity.
Defined.

Lemma getKeyWithRetry_empty_name_witness :
  (1 <= 3 <= 1014)%N
  /\ snd (getKeyWithRetry service "" (Some 3%N) down)
     = Rejected (ThrownError "Error" "Key name is required")
  /\ client_requests (fst (getKeyWithRetry service "" (Some 3%N) down)) = []
  /\ timeouts (fst (getKeyWithRetry service "" (Some 3%N) down)) = [2000%N; 4000%N].
Proof.
  assert (Hmax : (1 <= 3 <= 1014)%N) by lia.
  destruct (getKeyWithRetry_empty_name service down 3%N Hmax) as (Hout & Hreq & Hwait).
  split; [exact Hmax|]. split; [exact Hout|]. split; [exact Hreq|].
  rewrite Hwait. reflexivity.
Defined.

Lemma getKeyWithRetry_gives_up_on_status_witness :
  "MISSING_KEY" <> ""
  /\ (1 <= 3)%N
  /\ status keyMissing = 404%N
  /\ (exists err,
        snd (getKeyWithRetry service "MISSING_KEY" (Some 3%N) missing)
        = Rejected (ThrownSDKError err)
        /\ statusCode err = status keyMissing)
  /\ client_requests (fst (getKeyWithRetry service "MISSING_KEY" (Some 3%N) missing))
     = [get_request (shhed service) "MISSING_KEY"]
  /\ timeouts (fst (getKeyWithRetry service "MISSING_KEY" (Some 3%N) missing)) = [].
Proof.
  split; [discriminate|]. split; [lia|]. split; [reflexivity|].
  apply (getKeyWithRetry_gives_up_on_status service missing "MISSING_KEY" 3%N keyMissing
           (JObject {[ "detail" := JString "API key not found" ]}));
    [discriminate | lia | reflexivity | left; reflexivity | reflexivity | discriminate |].
  intros d Hd _. vm_compute in Hd. injection Hd as <-. discriminate.
Defined.

Lemma getKeyWithRetry_retries_unparsable_witness :
  "MISSING_KEY" <> ""
  /\ (1 <= 3)%N
  /\ status proxy404 = 404%N
  /\ (exists err,
        snd (getKeyWithRetry service "MISSING_KEY" (Some 3%N) garbled)
        = Rejected (ThrownSDKError err)
        /\ statusCode err = 0%N)
  /\ client_requests (fst (getKeyWithRetry service "MISSING_KEY" (Some 3%N) garbled))
     = replicate 3 (get_request (shhed service) "MISSING_KEY").
Proof.
  split; [discriminate|]. split; [lia|]. split; [reflexivity|].
  apply (getKeyWithRetry_retries_unparsable service garbled "MISSING_KEY" 3%N);
    [discriminate | lia |].
  intros i _. exists proxy404, "SyntaxError", "Unexpected end of JSON input".
  split; reflexivity.
Defined.

End FurtherRuns.
